(** * Incremental crawl engine of learning-note-analyzer

    Shallow embedding of the crawl engine of [src/spider/spider.py]
    (class [ArticleSpider]; [main.py] holds a near-identical copy of the
    same methods): timestamp parsing, the dedup/time filter, the crawl
    loop, the batch driver, the merge of incremental results and the
    save of the crawl history.

    Modelling conventions.
    - JSON payloads are the values [json] below; objects keep their
      key/value pairs in order, and a lookup takes the last binding of a
      key, as [json.loads] does when a key is repeated.
    - Python exceptions are the constructors of [exn]; a computation that
      may raise returns [result A].
    - Instants ([datetime] objects, all aware and in UTC in this code) are
      integers counting microseconds since the epoch.
    - Strings are byte strings; the Unicode digits and Unicode white space
      that Python's [int] also accepts are not modelled. *)

From Stdlib Require Import ZArith String Ascii List Bool Lia.
From stdpp Require Import base gmap sets list strings.
Import ListNotations.
Open Scope Z_scope.
Set Warnings "-register-all".

(** ** Python values and exceptions *)

Inductive json :=
| JNull
| JBool (b : bool)
| JNum (z : Z)
| JStr (s : string)
| JArr (l : list json)
| JObj (kvs : list (string * json)).

Inductive exn :=
| TypeError
| AttributeError
| KeyError
| OverflowError
| OSError
| IOError
| ValueError
(** A [postId] that is not a JSON string: such ids are outside this model
    (the API sends string ids, and [parse_articles] defaults to [""]). *)
| UnmodelledId.

Inductive result (A : Type) :=
| Ok (a : A)
| Raise (e : exn).
Arguments Ok {A} a.
Arguments Raise {A} e.

Definition bind {A B} (r : result A) (k : A -> result B) : result B :=
  match r with
  | Ok a => k a
  | Raise e => Raise e
  end.

Notation "'let?' x ':=' r 'in' k" := (bind r (fun x => k))
  (at level 200, x name, r at level 100, k at level 200).

(** Truthiness, as in [if x:] / [not x]. *)
Definition truthy (v : json) : bool :=
  match v with
  | JNull => false
  | JBool b => b
  | JNum z => negb (Z.eqb z 0)
  | JStr s => negb (String.eqb s "")
  | JArr l => negb (Nat.eqb (List.length l) 0)
  | JObj kvs => negb (Nat.eqb (List.length kvs) 0)
  end.

(** Last binding of [k] in the pairs of an object. *)
Definition obj_lookup (k : string) (kvs : list (string * json)) : option json :=
  fold_left (fun acc '(k', v) => if String.eqb k k' then Some v else acc) kvs None.

Definition substring_of (k s : string) : bool :=
  match String.index 0 k s with Some _ => true | None => false end.

(** [k in v] for a string [k]: key test on a dict, element test on a
    list, substring test on a string, [TypeError] otherwise. *)
Definition py_contains (k : string) (v : json) : result bool :=
  match v with
  | JObj kvs => Ok (match obj_lookup k kvs with Some _ => true | None => false end)
  | JArr l => Ok (existsb (fun e => match e with JStr s => String.eqb s k | _ => false end) l)
  | JStr s => Ok (substring_of k s)
  | _ => Raise TypeError
  end.

(** [v[k]] for a string [k]. *)
Definition py_getitem (v : json) (k : string) : result json :=
  match v with
  | JObj kvs => match obj_lookup k kvs with Some x => Ok x | None => Raise KeyError end
  | _ => Raise TypeError
  end.

(** [v.get(k, d)]: only dicts have a [get] method. *)
Definition py_get (v : json) (k : string) (d : json) : result json :=
  match v with
  | JObj kvs => Ok (match obj_lookup k kvs with Some x => x | None => d end)
  | _ => Raise AttributeError
  end.

(** [for x in v]: a dict yields its keys, a string its characters. *)
Definition py_iter (v : json) : result (list json) :=
  match v with
  | JArr l => Ok l
  | JObj kvs => Ok (map (fun '(k, _) => JStr k) kvs)
  | JStr s => Ok (map (fun c => JStr (String c EmptyString)) (list_ascii_of_string s))
  | _ => Raise TypeError
  end.

(** ** [int(x)] *)

(** White space that [int] strips (the ASCII part of [str.isspace]). *)
Definition is_space (c : ascii) : bool :=
  let n := nat_of_ascii c in
  ((9 <=? n) && (n <=? 13))%nat || ((28 <=? n) && (n <=? 32))%nat.

Definition digit_value (c : ascii) : option Z :=
  let n := nat_of_ascii c in
  if ((48 <=? n) && (n <=? 57))%nat then Some (Z.of_nat n - 48) else None.

Fixpoint drop_spaces (l : list ascii) : list ascii :=
  match l with
  | c :: r => if is_space c then drop_spaces r else l
  | [] => []
  end.

Definition strip (l : list ascii) : list ascii :=
  rev (drop_spaces (rev (drop_spaces l))).

(** Decimal digits with single underscores between digits; returns the
    value and the number of digits. *)
Fixpoint parse_digits (l : list ascii) (acc : Z) (cnt : nat) (after_digit : bool)
  : option (Z * nat) :=
  match l with
  | [] => if after_digit then Some (acc, cnt) else None
  | c :: r =>
      match digit_value c with
      | Some d => parse_digits r (acc * 10 + d) (S cnt) true
      | None =>
          if Ascii.eqb c "_"%char && after_digit
          then parse_digits r acc cnt false
          else None
      end
  end.

(** CPython's default limit on the digits of a decimal integer string. *)
Definition max_str_digits : nat := 4300.

Definition parse_unsigned (l : list ascii) : option Z :=
  match parse_digits l 0 0 false with
  | Some (z, cnt) => if (cnt <=? max_str_digits)%nat then Some z else None
  | None => None
  end.

(** [int(s)] on a string; [None] is the [ValueError]. *)
Definition py_int_str (s : string) : option Z :=
  match strip (list_ascii_of_string s) with
  | c :: r =>
      if Ascii.eqb c "-"%char then option_map Z.opp (parse_unsigned r)
      else if Ascii.eqb c "+"%char then parse_unsigned r
      else parse_unsigned (c :: r)
  | [] => None
  end.

(** [int(v)]; [None] is a [ValueError] or a [TypeError]. *)
Definition py_int (v : json) : option Z :=
  match v with
  | JNum z => Some z
  | JBool b => Some (if b then 1 else 0)
  | JStr s => py_int_str s
  | _ => None
  end.

(** ** [datetime.fromtimestamp(t, tz=timezone.utc)] *)

(** Days from 1970-01-01 to the first of January of the proleptic
    Gregorian year [y]. *)
Definition days_to_year (y : Z) : Z :=
  let y' := y - 1 in
  let era := y' / 400 in
  let yoe := y' - era * 400 in
  let doe := yoe * 365 + yoe / 4 - yoe / 100 + 306 in
  era * 146097 + doe - 719468.

Definition year_start (y : Z) : Z := days_to_year y * 86400.

(** [datetime] holds the years 1 to 9999. *)
Definition dt_lo : Z := year_start 1.
Definition dt_hi : Z := year_start 10000.

(** glibc's [gmtime_r] fails with [EOVERFLOW] when [year - 1900] does
    not fit an [int]; CPython then raises [OSError]. *)
Definition gm_lo : Z := year_start (-2147481748).
Definition gm_hi : Z := year_start 2147485548.

Definition time_t_lo : Z := - 2 ^ 63.
Definition time_t_hi : Z := 2 ^ 63.

(** [fromtimestamp] on an integer number of seconds, in microseconds.
    [Ok None] is the [ValueError] for a year outside 1..9999, which
    [_parse_timestamp] catches; the [OverflowError] (outside [time_t]) and
    the [OSError] of [gmtime] are not caught there. *)
Definition from_secs (t : Z) : result (option Z) :=
  if (t <? time_t_lo) || (time_t_hi <=? t) then Raise OverflowError
  else if (t <? gm_lo) || (gm_hi <=? t) then Raise OSError
  else if (t <? dt_lo) || (dt_hi <=? t) then Ok None
  else Ok (Some (t * 1000000)).

(** [fromtimestamp(t / 1000)] for a millisecond stamp [t > 10^12].
    The true division raises [OverflowError] when the quotient exceeds
    the largest double.  The ranges are decided on the exact quotient;
    the rounding of [t / 1000] to a double moves them by at most one
    unit next to each bound, and it shifts the microsecond value by one
    at most for stamps past 2^33 seconds (year 2242). *)
Definition from_ms (t : Z) : result (option Z) :=
  let s := t / 1000 in
  if 2 ^ 1024 <=? s then Raise OverflowError
  else if time_t_hi <=? s then Raise OverflowError
  else if gm_hi <=? s then Raise OSError
  else if dt_hi <=? s then Ok None
  else Ok (Some (t * 1000)).

(** [ArticleSpider._parse_timestamp]: [None] for a falsy value and for
    the [ValueError]/[TypeError] of [int] or [fromtimestamp]. *)
Definition _parse_timestamp (v : json) : result (option Z) :=
  if negb (truthy v) then Ok None
  else match py_int v with
       | None => Ok None
       | Some t => if 10 ^ 12 <? t then from_ms t else from_secs t
       end.

(** ** Article records *)

(** The fields of an article dict that the crawl engine reads.  A key
    absent from a dict loaded from disk reads as [""] in every access
    ([article.get(k, '')]), so it is represented by [""] here; [title]
    stands for the other mapped fields, which are copied verbatim. *)
Record article := mk_article {
  id : string;
  title : json;
  update_time : json;
  publish_time : json
}.

(** [ArticleSpider._is_article_newer]; [since_time] is an aware instant. *)
Definition _is_article_newer (a : article) (since_time : option Z) : result bool :=
  match since_time with
  | None => Ok true
  | Some since =>
      let? publish := _parse_timestamp (publish_time a) in
      let? update := _parse_timestamp (update_time a) in
      let article_time := match update with Some u => Some u | None => publish end in
      match article_time with
      | None => Ok true
      | Some t => Ok (since <? t)
      end
  end.

(** One iteration of the loop of [filter_new_articles]: [Some a] when the
    article is appended to [new_articles], with the updated id set. *)
Definition filter_one (seen : gset string) (since_time : option Z) (a : article)
  : result (option article * gset string) :=
  let article_id := id a in
  if negb (String.eqb article_id "") && bool_decide (article_id ∈ seen)
  then Ok (None, seen)
  else
    let? newer := _is_article_newer a since_time in
    if negb newer then Ok (None, seen)
    else Ok (Some a,
             if negb (String.eqb article_id "") then {[article_id]} ∪ seen else seen).

(** [ArticleSpider.filter_new_articles]: the accepted articles in order
    and the final [existing_article_ids]. *)
Fixpoint filter_new_articles (seen : gset string) (articles : list article)
  (since_time : option Z) : result (list article * gset string) :=
  match articles with
  | [] => Ok ([], seen)
  | a :: rest =>
      let? r := filter_one seen since_time a in
      let '(acc, seen1) := r in
      let? r' := filter_new_articles seen1 rest since_time in
      let '(out, seen2) := r' in
      Ok (match acc with Some x => x :: out | None => out end, seen2)
  end.

(** ** [parse_articles] *)

(** The record built from one item of [resultList]. *)
Definition parse_item (item : json) : result article :=
  let? post_id := py_get item "postId" (JStr "") in
  let? t := py_get item "title" (JStr "") in
  let? u := py_get item "lastEditTime" (JStr "") in
  let? p := py_get item "dateline" (JStr "") in
  match post_id with
  | JStr s => Ok (mk_article s t u p)
  | _ => Raise UnmodelledId
  end.

Fixpoint parse_items (items : list json) : result (list article) :=
  match items with
  | [] => Ok []
  | it :: rest =>
      let? a := parse_item it in
      let? r := parse_items rest in
      Ok (a :: r)
  end.

(** [ArticleSpider.parse_articles]. *)
Definition parse_articles (data : json) : result (list article) :=
  let? has_data := py_contains "data" data in
  if negb has_data then Ok []
  else
    let? d := py_getitem data "data" in
    let? has_list := py_contains "resultList" d in
    if negb has_list then Ok []
    else
      let? rl := py_getitem d "resultList" in
      let? items := py_iter rl in
      parse_items items.

(** ** Merge of incremental results ([merge_and_save_incremental]) *)

(** [{article.get('id', '') for article in existing if article.get('id')}] *)
Definition existing_ids (existing : list article) : gset string :=
  foldr (fun a s => if negb (String.eqb (id a) "") then {[id a]} ∪ s else s) ∅ existing.

(** [existing_articles + [a for a in all_new_articles
                           if a.get('id', '') not in existing_ids]] *)
Definition merge (existing incoming : list article) : list article :=
  let ids := existing_ids existing in
  existing ++ filter (fun a => id a ∉ ids) incoming.

(** The combined corpus written by [merge_and_save_incremental]: the
    results of all configurations, in the order of the dict, merged into
    the loaded corpus. *)
Definition merge_and_save_incremental (existing : list article)
  (new_results : list (string * list article)) : list article :=
  merge existing (concat (map snd new_results)).

(** ** The crawl loop ([ArticleSpider.get_all_articles]) *)

Record spider_config := mk_config {
  section_id : string;
  topic_class_id : string;
  config_name : string
}.

(** The attributes of an [ArticleSpider] that the crawl engine updates. *)
Record spider := mk_spider {
  all_articles : list article;
  existing_article_ids : gset string;
  last_crawl_time : option Z
}.

Definition set_all_articles (sp : spider) (l : list article) : spider :=
  mk_spider l (existing_article_ids sp) (last_crawl_time sp).


(** Observable events of a run: a page request, and the log line
    "连续多页无新文章，增量爬取可能已完成" of the incremental heuristic. *)
Inductive event :=
| EFetch (page : Z)
| ECatchUpHint (page : Z).

Record loop_state := mk_loop {
  sp : spider;
  page_index : Z;
  events : list event
}.

Inductive outcome :=
| Continue (st : loop_state)
| Done (st : loop_state).

Definition page_size : Z := 12.

(** [math.ceil(total_count / page_size)].  The division is exact for the
    counts an API returns (below 2^48); [OverflowError] when the quotient
    exceeds the largest double; [TypeError] for a non-number. *)
Definition total_pages_of (tc : json) : result Z :=
  match tc with
  | JNum z => if 2 ^ 1024 <=? Z.abs z / page_size then Raise OverflowError
              else Ok (- ((- z) / page_size))
  | JBool b => Ok (if b then 1 else 0)
  | _ => Raise TypeError
  end.

(** [not data or "data" not in data or "resultList" not in data["data"]] *)
Definition invalid_payload (data : json) : result bool :=
  if negb (truthy data) then Ok true
  else
    let? c1 := py_contains "data" data in
    if negb c1 then Ok true
    else
      let? d := py_getitem data "data" in
      let? c2 := py_contains "resultList" d in
      Ok (negb c2).

(** The [totalCount] check: [true] when the loop breaks there. *)
Definition total_count_break (data : json) (page : Z) : result bool :=
  let? d := py_getitem data "data" in
  let? has_tc := py_contains "totalCount" d in
  if negb has_tc then Ok false
  else
    let? tc := py_getitem d "totalCount" in
    let? total_pages := total_pages_of tc in
    Ok (total_pages <? page).

Section Loop.
(** [get_page_data(page_index, page_size, config)] for the configuration
    of the run: the decoded response, or [{}] after a request error. *)
Variable fetch : Z -> json.
Variable incremental : bool.
Variable filter_time : option Z.

(** One iteration of [while page_index <= max_pages:]. *)
Definition loop_body (st : loop_state) : result outcome :=
  let p := page_index st in
  let ev := events st ++ [EFetch p] in
  let data := fetch p in
  let? invalid := invalid_payload data in
  if invalid then Ok (Continue (mk_loop (sp st) (p + 1) ev))
  else
    let? stop := total_count_break data p in
    if stop then Ok (Done (mk_loop (sp st) p ev))
    else
      let? articles := parse_articles data in
      let? r :=
        (if incremental || bool_decide (is_Some filter_time) then
           let? fr := filter_new_articles (existing_article_ids (sp st)) articles filter_time in
           let '(filtered, ids) := fr in
           let sp1 := mk_spider (all_articles (sp st) ++ filtered) ids (last_crawl_time (sp st)) in
           let ev1 := if incremental && Nat.eqb (length filtered) 0 && (3 <? p)
                      then ev ++ [ECatchUpHint p] else ev in
           Ok (sp1, ev1)
         else Ok (set_all_articles (sp st) (all_articles (sp st) ++ articles), ev)) in
      let '(sp1, ev1) := r in
      if Z.of_nat (length articles) <? page_size then Ok (Done (mk_loop sp1 p ev1))
      else Ok (Continue (mk_loop sp1 (p + 1) ev1)).

Variable max_pages : Z.

(** The [while] loop, run for at most [fuel] iterations. *)
Fixpoint crawl_loop (fuel : nat) (st : loop_state) : result loop_state :=
  match fuel with
  | O => Ok st
  | S f =>
      if page_index st <=? max_pages then
        let? o := loop_body st in
        match o with
        | Continue st' => crawl_loop f st'
        | Done st' => Ok st'
        end
      else Ok st
  end.
End Loop.

(** [filter_time = since_time if since_time else
      (self.last_crawl_time if incremental else None)] *)
Definition filter_time_of (s : spider) (incremental : bool) (since_time : option Z) : option Z :=
  match since_time with
  | Some t => Some t
  | None => if incremental then last_crawl_time s else None
  end.

(** The loop from [page_index = 1]; every iteration that goes on adds one
    to [page_index], so [max_pages] iterations reach the loop bound. *)
Definition crawl (net : spider_config -> Z -> json) (max_pages : Z)
  (config : spider_config) (incremental : bool) (since_time : option Z) (s : spider)
  : result loop_state :=
  crawl_loop (net config) incremental (filter_time_of s incremental since_time)
    max_pages (Z.to_nat max_pages) (mk_loop s 1 []).

(** [get_all_articles]: the spider afterwards and the returned list,
    which is the spider's own [all_articles]. *)
Definition get_all_articles (net : spider_config -> Z -> json) (max_pages : Z)
  (config : spider_config) (incremental : bool) (since_time : option Z) (s : spider)
  : result (spider * list article) :=
  let? st := crawl net max_pages config incremental since_time s in
  Ok (sp st, all_articles (sp st)).

(** ** The batch driver ([get_all_articles_batch]) *)

(** [d[k] = v] on a dict kept as pairs in insertion order. *)
Fixpoint dict_set {A} (d : list (string * A)) (k : string) (v : A) : list (string * A) :=
  match d with
  | [] => [(k, v)]
  | (k', v') :: r => if String.eqb k k' then (k, v) :: r else (k', v') :: dict_set r k v
  end.

Fixpoint dict_get {A} (d : list (string * A)) (k : string) : option A :=
  match d with
  | [] => None
  | (k', v') :: r => if String.eqb k k' then Some v' else dict_get r k
  end.

Section Batch.
Variable net : spider_config -> Z -> json.
Variable configs : list (string * spider_config).
Variable max_pages : Z.
Variable incremental : bool.
Variable since_time : option Z.

(** The [for config_name in config_names:] loop. *)
Fixpoint batch_loop (names : list string) (s : spider)
  (results : list (string * list article)) : result (spider * list (string * list article)) :=
  match names with
  | [] => Ok (s, results)
  | name :: rest =>
      match dict_get configs name with
      | None => batch_loop rest s results
      | Some config =>
          let temp_articles := all_articles s in
          let? r := get_all_articles net max_pages config incremental since_time
                      (set_all_articles s []) in
          let '(s1, articles) := r in
          batch_loop rest (set_all_articles s1 (temp_articles ++ articles))
            (dict_set results name articles)
      end
  end.

Definition get_all_articles_batch (config_names : option (list string)) (s : spider)
  : result (spider * list (string * list article)) :=
  let names := match config_names with Some l => l | None => map fst configs end in
  batch_loop names s [].
End Batch.

(** ** The crawl history ([save_crawl_history]) *)

(** *** [json.dump(data, f, ensure_ascii=False, indent=2)]

    [json.dump] with an indent runs the pure Python encoder
    ([_make_iterencode] of [json/encoder.py]) and writes each chunk it
    yields; the text below is what reaches [f], and [false] marks a chunk
    whose computation raised. *)

Definition chr (n : nat) : ascii := ascii_of_nat n.

Definition hex_digit (n : nat) : ascii :=
  if (n <? 10)%nat then chr (48 + n) else chr (87 + n).

(** [py_encode_basestring] for one character: the escapes of
    [ESCAPE_DCT], other control characters as [\u00XX]; with
    [ensure_ascii=False] every other byte is copied. *)
Definition escape_char (c : ascii) : list ascii :=
  let n := nat_of_ascii c in
  if (n =? 34)%nat then [chr 92; chr 34]
  else if (n =? 92)%nat then [chr 92; chr 92]
  else if (n =? 8)%nat then [chr 92; "b"%char]
  else if (n =? 12)%nat then [chr 92; "f"%char]
  else if (n =? 10)%nat then [chr 92; "n"%char]
  else if (n =? 13)%nat then [chr 92; "r"%char]
  else if (n =? 9)%nat then [chr 92; "t"%char]
  else if (n <? 32)%nat then
    [chr 92; "u"%char; "0"%char; "0"%char; hex_digit (n / 16); hex_digit (n mod 16)]
  else [c].

Definition encode_string (s : string) : list ascii :=
  chr 34 :: flat_map escape_char (list_ascii_of_string s) ++ [chr 34].

(** Decimal digits of a non-negative integer, last digit first; the fuel
    [log2 n + 1] is at least the number of digits. *)
Fixpoint digits_rev (fuel : nat) (n : Z) : list ascii :=
  match fuel with
  | O => []
  | S k => chr (48 + Z.to_nat (n mod 10))
           :: (if n <? 10 then [] else digits_rev k (n / 10))
  end.

Definition z_digits (n : Z) : list ascii :=
  rev (digits_rev (S (Z.to_nat (Z.log2 n))) n).

(** [int.__repr__]: [None] is the [ValueError] raised for more than
    [max_str_digits] digits. *)
Definition int_repr (z : Z) : option (list ascii) :=
  let d := z_digits (Z.abs z) in
  if (max_str_digits <? length d)%nat then None
  else Some (if z <? 0 then "-"%char :: d else d).

Inductive scalar_out :=
| NotScalar
| ScalarText (t : list ascii)
| ScalarFail.

(** The text [_iterencode] yields for a value that is not a container. *)
Definition scalar_text (v : json) : scalar_out :=
  match v with
  | JNull => ScalarText (list_ascii_of_string "null")
  | JBool true => ScalarText (list_ascii_of_string "true")
  | JBool false => ScalarText (list_ascii_of_string "false")
  | JNum z => match int_repr z with Some t => ScalarText t | None => ScalarFail end
  | JStr s => ScalarText (encode_string s)
  | JArr _ | JObj _ => NotScalar
  end.

(** Chunks written one after the other: nothing after a failure. *)
Definition then_write (a b : list ascii * bool) : list ascii * bool :=
  if snd a then (fst a ++ fst b, snd b) else a.

Definition newline_indent (level : nat) : list ascii :=
  chr 10 :: repeat " "%char (2 * level).

(** [_iterencode_list] yields [buf + repr(value)] for a scalar item, so a
    failing [repr] loses the separator too; [_iterencode_dict] yields the
    separator, the key and [': '] as chunks of their own. *)
Fixpoint encode (level : nat) (v : json) : list ascii * bool :=
  match v with
  | JArr [] => (list_ascii_of_string "[]", true)
  | JArr l =>
      let nl := newline_indent (S level) in
      then_write
        ((fix items (first : bool) (l : list json) : list ascii * bool :=
            match l with
            | [] => ([], true)
            | x :: r =>
                let buf := if first then "["%char :: nl else ","%char :: nl in
                then_write
                  (match scalar_text x with
                   | ScalarText t => (buf ++ t, true)
                   | ScalarFail => ([], false)
                   | NotScalar => then_write (buf, true) (encode (S level) x)
                   end)
                  (items false r)
            end) true l)
        (newline_indent level ++ ["]"%char], true)
  | JObj [] => (list_ascii_of_string "{}", true)
  | JObj kvs =>
      let nl := newline_indent (S level) in
      then_write
        (then_write ("{"%char :: nl, true)
          ((fix items (first : bool) (kvs : list (string * json)) : list ascii * bool :=
              match kvs with
              | [] => ([], true)
              | (k, x) :: r =>
                  then_write
                    (then_write
                      ((if first then [] else ","%char :: nl) ++ encode_string k
                         ++ list_ascii_of_string ": ", true)
                      (match scalar_text x with
                       | ScalarText t => (t, true)
                       | ScalarFail => ([], false)
                       | NotScalar => encode (S level) x
                       end))
                    (items false r)
              end) true kvs))
        (newline_indent level ++ ["}"%char], true)
  | _ =>
      match scalar_text v with
      | ScalarText t => (t, true)
      | _ => ([], false)
      end
  end.

(** The text [json.dump] writes before it returns or raises, and whether
    it returns. *)
Definition dump_text (v : json) : list ascii := fst (encode 0 v).
Definition dump_ok (v : json) : bool := snd (encode 0 v).

(** *** Files *)

(** What a path holds: the whole text [json.dump] wrote for [v], or only
    its first [n] characters ([open(path, 'w')] truncates the file before
    [json.dump] writes, so a write that fails leaves a prefix behind). *)
Inductive file_content :=
| Complete (v : json)
| Truncated (v : json) (n : nat).

(** [json.load] on such a file; [None] is the [JSONDecodeError].  A prefix
    of the text of an array, object, string or constant lacks its closing
    character; a prefix of a number is read as a number when it holds a
    digit. *)
Definition json_load (c : file_content) : option json :=
  match c with
  | Complete v => Some v
  | Truncated (JNum _ as v) n =>
      match firstn n (dump_text v) with
      | [] => None
      | l => option_map JNum (py_int_str (string_of_list_ascii l))
      end
  | Truncated _ _ => None
  end.

(** The files, and the outcome of writing one: [can_open f path] is
    [false] when [ensure_dir] or [open(path, 'w')] fails, before the file is
    touched; [write_limit f path = Some n] when only [n] characters can be
    written there (a full disk or a quota), the write of a longer text then
    failing with [OSError]. *)
Record fs := mk_fs {
  files : list (string * file_content);
  can_open : string -> bool;
  write_limit : string -> option nat
}.

Definition set_files (f : fs) (fl : list (string * file_content)) : fs :=
  mk_fs fl (can_open f) (write_limit f).

(** [os.path.dirname(path)] is empty exactly when [path] has no [/]; then
    [ensure_dir] calls [os.makedirs('')], which raises
    [FileNotFoundError]. *)
Definition has_dir (path : string) : bool :=
  existsb (fun c => Ascii.eqb c "/"%char) (list_ascii_of_string path).

(** [save_json]: the state of the files afterwards, and whether it
    returned or raised (it logs and re-raises every exception). *)
Definition save_json (f : fs) (path : string) (data : json) : fs * result unit :=
  if negb (has_dir path && can_open f path) then (f, Raise OSError)
  else
    let text := dump_text data in
    match write_limit f path with
    | Some n =>
        if (n <? length text)%nat
        then (set_files f (dict_set (files f) path (Truncated data n)), Raise OSError)
        else if dump_ok data
        then (set_files f (dict_set (files f) path (Complete data)), Ok tt)
        else (set_files f (dict_set (files f) path (Truncated data (length text))), Raise ValueError)
    | None =>
        if dump_ok data
        then (set_files f (dict_set (files f) path (Complete data)), Ok tt)
        else (set_files f (dict_set (files f) path (Truncated data (length text))), Raise ValueError)
    end.

Inductive log_line :=
| LogSaved (path : string)
| LogSaveFailed (path : string).

(** [ArticleSpider.save_crawl_history]; [now_iso] is
    [datetime.now(timezone.utc).isoformat()].  The [except Exception]
    turns every failure of [save_json] into an error log line. *)
Definition save_crawl_history (crawl_history_file now_iso : string) (s : spider) (f : fs)
  : result (fs * list log_line) :=
  let history := JObj [("last_crawl_time", JStr now_iso);
                       ("total_articles", JNum (Z.of_nat (length (all_articles s))))] in
  let '(f', r) := save_json f crawl_history_file history in
  match r with
  | Ok _ => Ok (f', [LogSaved crawl_history_file])
  | Raise _ => Ok (f', [LogSaveFailed crawl_history_file])
  end.

(** ** Cookies ([ArticleSpider._parse_cookies]) *)

(** [s.split('; ')]: the pieces between the occurrences of the
    separator, found from left to right; [cur] is the current piece,
    reversed. *)
Fixpoint split_cookie_list (l : list ascii) (cur : list ascii) : list (list ascii) :=
  match l with
  | [] => [rev cur]
  | c :: r =>
      match r with
      | d :: r' =>
          if Ascii.eqb c ";"%char && Ascii.eqb d " "%char
          then rev cur :: split_cookie_list r' []
          else split_cookie_list r (c :: cur)
      | [] => split_cookie_list r (c :: cur)
      end
  end.

(** [cookie.split('=', 1)] on a piece that contains ['=']; [None] when
    [not '=' in cookie]. *)
Fixpoint split_once_eq (l : list ascii) : option (list ascii * list ascii) :=
  match l with
  | [] => None
  | c :: r =>
      if Ascii.eqb c "="%char then Some ([], r)
      else option_map (fun '(k, v) => (c :: k, v)) (split_once_eq r)
  end.

(** [ArticleSpider._parse_cookies]; the dict keeps its pairs in insertion
    order. *)
Definition _parse_cookies (cookies_str : string) : list (string * string) :=
  if String.eqb cookies_str "" then []
  else
    fold_left
      (fun cookies cookie =>
         match split_once_eq cookie with
         | Some (key, value) =>
             dict_set cookies (string_of_list_ascii key) (string_of_list_ascii value)
         | None => cookies
         end)
      (split_cookie_list (list_ascii_of_string cookies_str) []) [].

(** ** [SpiderConfig] *)

Module SpiderConfig.

(** The dataclass does not check the types of its fields, so they hold
    any value. *)
Record t := mk {
  section_id : json;
  topic_class_id : json;
  name : json;
  description : json;
  base_url : json
}.

Definition default_base_url : string :=
  "https://www.hiascend.com/ascendgateway/ascendservice/devCenter/bbs/servlet/get-topic-list".

Definition to_dict (c : t) : json :=
  JObj [("section_id", section_id c);
        ("topic_class_id", topic_class_id c);
        ("name", name c);
        ("description", description c);
        ("base_url", base_url c)].

(** [SpiderConfig.from_dict]: the keyword arguments are evaluated in
    order, so the first missing required key raises. *)
Definition from_dict (data : json) : result t :=
  let? s := py_getitem data "section_id" in
  let? tc := py_getitem data "topic_class_id" in
  let? n := py_getitem data "name" in
  let? d := py_get data "description" (JStr "") in
  let? b := py_get data "base_url" (JStr default_base_url) in
  Ok (mk s tc n d b).

End SpiderConfig.

(** [ArticleSpider.add_config]: [self.configs[config_name] = SpiderConfig(...)]
    with the default [base_url]. *)
Definition add_config (configs : list (string * SpiderConfig.t))
  (config_name section_id topic_class_id name description : string)
  : list (string * SpiderConfig.t) :=
  dict_set configs config_name
    (SpiderConfig.mk (JStr section_id) (JStr topic_class_id) (JStr name) (JStr description)
       (JStr SpiderConfig.default_base_url)).

(** [ArticleSpider.set_config]: the new [current_config] and the returned
    flag. *)
Definition set_config (configs : list (string * SpiderConfig.t)) (current_config : SpiderConfig.t)
  (config_name : string) : SpiderConfig.t * bool :=
  match dict_get configs config_name with
  | Some c => (c, true)
  | None => (current_config, false)
  end.

(** ** Loading from disk *)

Fixpoint last_char (s : string) : option ascii :=
  match s with
  | EmptyString => None
  | String c EmptyString => Some c
  | String _ r => last_char r
  end.

(** [os.path.join(a, b)] (POSIX). *)
Definition path_join (a b : string) : string :=
  if String.prefix "/" b then b
  else if String.eqb a "" || match last_char a with Some c => Ascii.eqb c "/"%char | None => false end
  then (a ++ b)%string
  else (a ++ "/" ++ b)%string.

(** [ArticleSpider.load_existing_data] of [spider.py], on the files [f]:
    the articles returned, and the spider afterwards.  [spider.py] does
    not import [load_json] (line 20 imports [get_logger], [ensure_dir],
    [save_json] and [save_csv] only), so when the file exists the call
    [load_json(filepath)] raises [NameError], which [except Exception]
    catches: the method logs and returns [[]] before assigning
    [existing_article_ids]. *)
Definition load_existing_data (f : fs) (data_dir : string) (filename : option string)
  (s : spider) : spider * list article :=
  let filepath := path_join data_dir (match filename with Some n => n | None => "articles_all.json" end) in
  match dict_get (files f) filepath with
  | None => (s, [])
  | Some _ => (s, [])
  end.

(** [ArticleSpider.load_crawl_history] of [spider.py]: the same
    [NameError] is raised and caught before [last_crawl_time] is set. *)
Definition load_crawl_history (f : fs) (crawl_history_file : string) (s : spider) : spider :=
  match dict_get (files f) crawl_history_file with
  | None => s
  | Some _ => s
  end.

(** [ArticleSpider.incremental_crawl] of [spider.py]: the spider and the
    files afterwards, and the returned results. *)
Definition incremental_crawl (net : spider_config -> Z -> json)
  (configs : list (string * spider_config)) (data_dir crawl_history_file now_iso : string)
  (config_names : option (list string)) (max_pages : Z) (load_existing : bool)
  (f : fs) (s : spider) : result (spider * fs * list (string * list article)) :=
  let s1 := load_crawl_history f crawl_history_file s in
  let '(s2, existing_articles) :=
    if load_existing then load_existing_data f data_dir None s1 else (s1, []) in
  let? r := get_all_articles_batch net configs max_pages true None config_names s2 in
  let '(s3, results) := r in
  let s4 := match existing_articles with
            | [] => s3
            | _ => set_all_articles s3 (existing_articles ++ concat (map snd results))
            end in
  let? h := save_crawl_history crawl_history_file now_iso s4 f in
  Ok (s4, fst h, results).



(** ** Saving ([merge_and_save_incremental], [save_to_json], [save_to_csv]) *)

(** The file writes a method asks for, in order.  A write that fails
    raises out of the method, so the writes performed are a prefix of
    this list. *)
Inductive write_op :=
| WriteJson (path : string) (articles : list article)
| WriteCsv (path : string) (articles : list article).

(** [ArticleSpider.save_to_json] with explicit [articles]. *)
Definition save_to_json (data_dir filename : string) (articles : list article) : list write_op :=
  [WriteJson (path_join data_dir filename) articles].

(** [ArticleSpider.save_to_csv] with explicit [articles]: nothing is
    written for an empty list. *)
Definition save_to_csv (data_dir filename : string) (articles : list article) : list write_op :=
  match articles with
  | [] => []
  | _ => [WriteCsv (path_join data_dir filename) articles]
  end.

(** [ArticleSpider.merge_and_save_incremental] of [spider.py]: the spider
    afterwards and the writes. *)
Definition merge_and_save_incremental_writes (f : fs) (data_dir base_filename : string)
  (s : spider) (new_results : list (string * list article)) : spider * list write_op :=
  let '(s1, existing_articles) :=
    load_existing_data f data_dir (Some (base_filename ++ "_all.json")%string) s in
  let combined_articles := merge_and_save_incremental existing_articles new_results in
  (s1,
   save_to_json data_dir (base_filename ++ "_all.json") combined_articles ++
   save_to_csv data_dir (base_filename ++ "_all.csv") combined_articles ++
   concat (map (fun '(config_name, articles) =>
                  match articles with
                  | [] => []
                  | _ => save_to_json data_dir
                           (base_filename ++ "_" ++ config_name ++ "_incremental.json") articles ++
                         save_to_csv data_dir
                           (base_filename ++ "_" ++ config_name ++ "_incremental.csv") articles
                  end) new_results)).

(** * Properties *)

(** ** Concrete inputs *)

Fixpoint zeros (n : nat) : string :=
  match n with
  | O => EmptyString
  | S k => String "0"%char (zeros k)
  end.

(** A [dateline] of 401 digits: an integer string that [int] accepts. *)
Definition huge_stamp : string := String "1"%char (zeros 400).

(** An article edited at 2023-11-14T22:13:20Z whose [dateline] is
    [huge_stamp]. *)
Definition overflow_article : article :=
  mk_article "42" (JStr "t") (JStr "1700000000") (JStr huge_stamp).

(** ** The time filter *)

Lemma bind_ok {A B} (a : A) (k : A -> result B) : bind (Ok a) k = k a.
Proof. reflexivity. Qed.

(** When neither stamp raises, the filter compares the effective time
    (update time, else publish time) strictly with [since_time]. *)
Lemma is_article_newer_compare (a : article) (since : Z) (pu pp : option Z) :
  _parse_timestamp (update_time a) = Ok pu ->
  _parse_timestamp (publish_time a) = Ok pp ->
  _is_article_newer a (Some since) =
    Ok (match (match pu with Some u => Some u | None => pp end) with
        | Some t => since <? t
        | None => true
        end).
Proof.
  intros Hu Hp. unfold _is_article_newer. rewrite Hp, bind_ok, Hu, bind_ok.
  destruct pu, pp; reflexivity.
Qed.

Lemma is_article_newer_boundary (a : article) (since t : Z) (pp : option Z) :
  _parse_timestamp (update_time a) = Ok (Some t) ->
  _parse_timestamp (publish_time a) = Ok pp ->
  (t = since -> _is_article_newer a (Some since) = Ok false) /\
  (t = since + 1000000 -> _is_article_newer a (Some since) = Ok true).
Proof.
  intros Hu Hp. rewrite (is_article_newer_compare a since (Some t) pp Hu Hp).
  split; intros ->; f_equal; apply Z.ltb_irrefl || (apply Z.ltb_lt; lia).
Qed.

(** C1 (code_bug): [_parse_timestamp] catches only [ValueError] and
    [TypeError].  A 401-digit [dateline] makes [timestamp / 1000] raise
    [OverflowError], which escapes: the filter raises for an article whose
    effective (update) time is parseable, instead of comparing that time
    with [since_time]; so does [filter_new_articles]. *)
Theorem is_article_newer_publish_overflow :
  _parse_timestamp (update_time overflow_article) = Ok (Some 1700000000000000) /\
  _is_article_newer overflow_article (Some 0) = Raise OverflowError /\
  filter_new_articles ∅ [overflow_article] (Some 0) = Raise OverflowError.
Proof. vm_compute. repeat split. Qed.

(** A timestamp field whose value is unknown: empty (also an absent key),
    JSON [null], or a string that [int] rejects. *)
Definition unknown_stamp (v : json) : Prop :=
  v = JStr "" \/ v = JNull \/ exists s, v = JStr s /\ py_int_str s = None.

Lemma parse_timestamp_unknown (v : json) :
  unknown_stamp v -> _parse_timestamp v = Ok None.
Proof.
  intros [-> | [-> | [s [-> Hs]]]]; try reflexivity.
  unfold _parse_timestamp. simpl. rewrite Hs. by destruct (negb _).
Qed.

(** C7: an article whose update and publish stamps are both unknown is
    accepted for every [since_time] unless its id is already seen; the id
    set grows by its id when that id is non-empty. *)
Theorem filter_one_unknown_time_accepts (seen : gset string) (since_time : option Z)
  (a : article) :
  unknown_stamp (update_time a) -> unknown_stamp (publish_time a) ->
  (id a = "" \/ id a ∉ seen) ->
  filter_one seen since_time a =
    Ok (Some a, if negb (String.eqb (id a) "") then {[id a]} ∪ seen else seen).
Proof.
  intros Hu Hp Hid. unfold filter_one.
  assert (Hnew : _is_article_newer a since_time = Ok true).
  { destruct since_time as [since |]; [| reflexivity].
    rewrite (is_article_newer_compare a since None None); try reflexivity;
      by apply parse_timestamp_unknown. }
  assert (Hdup : negb (String.eqb (id a) "") && bool_decide (id a ∈ seen) = false).
  { destruct Hid as [-> | Hn]; [reflexivity |].
    rewrite bool_decide_eq_false_2 by done. apply andb_false_r. }
  rewrite Hdup, Hnew. reflexivity.
Qed.

(** Every article kept by [filter_new_articles] had an empty id or an id
    outside the initial id set, and the id set only grows. *)
Lemma filter_new_articles_fresh (seen : gset string) (arts : list article)
  (since_time : option Z) (out : list article) (seen' : gset string) :
  filter_new_articles seen arts since_time = Ok (out, seen') ->
  seen ⊆ seen' /\ forall a, a ∈ out -> id a = "" \/ id a ∉ seen.
Proof.
  revert seen out seen'. induction arts as [| a rest IH]; intros seen out seen' H.
  - simpl in H. injection H as <- <-. split; [done | set_solver].
  - simpl in H. unfold filter_one in H.
    destruct (negb (String.eqb (id a) "") && bool_decide (id a ∈ seen)) eqn:Hdup.
    + rewrite bind_ok in H.
      destruct (filter_new_articles seen rest since_time) as [[o s2] |] eqn:Hr; [| discriminate].
      simpl in H. injection H as <- <-. exact (IH _ _ _ Hr).
    + destruct (_is_article_newer a since_time) as [newer |]; [| discriminate].
      rewrite bind_ok in H. destruct (negb newer).
      * rewrite bind_ok in H.
        destruct (filter_new_articles seen rest since_time) as [[o s2] |] eqn:Hr; [| discriminate].
        simpl in H. injection H as <- <-. exact (IH _ _ _ Hr).
      * rewrite bind_ok in H.
        set (seen1 := if negb (String.eqb (id a) "") then {[id a]} ∪ seen else seen) in H.
        destruct (filter_new_articles seen1 rest since_time) as [[o s2] |] eqn:Hr; [| discriminate].
        simpl in H. injection H as <- <-.
        destruct (IH _ _ _ Hr) as [Hsub Hfresh].
        assert (Hs1 : seen ⊆ seen1) by (unfold seen1; destruct (negb _); set_solver).
        split; [set_solver |].
        intros x Hx. apply elem_of_cons in Hx as [-> | Hx].
        -- destruct (String.eqb (id a) "") eqn:He; [left; by apply String.eqb_eq |].
           right. simpl in Hdup. apply bool_decide_eq_false in Hdup. done.
        -- destruct (Hfresh x Hx) as [? | Hn]; [by left | right; set_solver].
Qed.

(** C3: an article whose non-empty id is already in the id set is skipped
    by the dedup check, whatever [since_time] is, leaving the set as it
    is; and it never appears in what [filter_new_articles] returns. *)
Theorem filter_rejects_seen_id (seen : gset string) (since_time : option Z) (r : article) :
  id r <> "" -> id r ∈ seen ->
  filter_one seen since_time r = Ok (None, seen) /\
  forall arts out seen',
    filter_new_articles seen arts since_time = Ok (out, seen') -> r ∉ out.
Proof.
  intros Hne Hin. split.
  - unfold filter_one. apply String.eqb_neq in Hne. rewrite Hne.
    rewrite bool_decide_eq_true_2 by done. reflexivity.
  - intros arts out seen' H Hr.
    destruct (filter_new_articles_fresh _ _ _ _ _ H) as [_ Hf].
    destruct (Hf r Hr); contradiction.
Qed.

(** ** The merge *)

Lemma elem_of_existing_ids (i : string) (existing : list article) :
  i ∈ existing_ids existing <-> i <> "" /\ Exists (fun e => id e = i) existing.
Proof.
  induction existing as [| e rest IH]; simpl.
  - split; [set_solver | intros [_ H]; inversion H].
  - rewrite Exists_cons. destruct (String.eqb (id e) "") eqn:He; simpl.
    + apply String.eqb_eq in He. rewrite IH. split.
      * intros [? ?]. tauto.
      * intros [Hi [Heq | Hx]]; [subst; congruence | tauto].
    + apply String.eqb_neq in He. rewrite elem_of_union, elem_of_singleton, IH.
      split.
      * intros [-> | [? ?]]; tauto.
      * intros [Hi [Heq | Hx]]; [by left | by right].
Qed.

(** The records [merge] keeps from [incoming]: those whose id is not a
    non-empty id of a record of [existing]. *)
Definition kept_by_spec (existing : list article) (a : article) : Prop :=
  ~ (id a <> "" /\ Exists (fun e => id e = id a) existing).

(** C4: [merge existing incoming] is [existing] followed by the records
    of [incoming] whose id is not a non-empty id occurring in [existing],
    both in their original order; scenario D of the spec. *)
Theorem merge_characterization (existing incoming : list article) :
  merge existing incoming = existing ++ filter (kept_by_spec existing) incoming /\
  merge [mk_article "1" JNull (JStr "") (JStr ""); mk_article "2" JNull (JStr "") (JStr "")]
        [mk_article "2" JNull (JStr "") (JStr ""); mk_article "3" JNull (JStr "") (JStr "")]
  = [mk_article "1" JNull (JStr "") (JStr ""); mk_article "2" JNull (JStr "") (JStr "");
     mk_article "3" JNull (JStr "") (JStr "")].
Proof.
  split; [| reflexivity].
  unfold merge. f_equal. apply list_filter_iff.
  intros a. unfold kept_by_spec. rewrite elem_of_existing_ids. reflexivity.
Qed.

Definition empty_id_article : article := mk_article "" (JStr "t") (JStr "") (JStr "").

(** C2 (counterexample): with one record of empty id in [X] and [Y]
    empty, merging [X] again appends that record a second time. *)
Lemma merge_not_idempotent_empty_id :
  merge [empty_id_article] (merge [empty_id_article] []) <> merge [empty_id_article] [].
Proof. vm_compute. discriminate. Qed.

Lemma filter_iff_on {A} (P1 P2 : A -> Prop)
  `{!forall x, Decision (P1 x), !forall x, Decision (P2 x)} (l : list A) :
  (forall x, x ∈ l -> (P1 x <-> P2 x)) -> filter P1 l = filter P2 l.
Proof.
  induction l as [| x l IH]; intros Hiff; [done |].
  rewrite !filter_cons. rewrite IH by (intros y Hy; apply Hiff; by right).
  assert (Hx : P1 x <-> P2 x) by (apply Hiff; left).
  destruct (decide (P1 x)), (decide (P2 x)); tauto.
Qed.

Lemma filter_not_in_ids_self (X : list article) :
  filter (fun a => id a ∉ existing_ids X) X = filter (fun a => id a = "") X.
Proof.
  apply filter_iff_on. intros a Ha.
  rewrite elem_of_existing_ids. split.
  - intros Hn. destruct (decide (id a = "")) as [? | Hne]; [done |].
    exfalso. apply Hn. split; [done |].
    apply Exists_exists. by exists a.
  - intros He [Hne _]. contradiction.
Qed.

(** C2 (amended): merging [X] into [merge X Y] adds [X]'s records of empty
    id once more, right after [X], and changes nothing else; so the merge
    is idempotent when every record of [X] has a non-empty id. *)
Theorem merge_idempotent_nonempty_ids (X Y : list article) :
  merge X (merge X Y) =
    X ++ filter (fun a => id a = "") X ++ filter (fun a => id a ∉ existing_ids X) Y /\
  (Forall (fun a => id a <> "") X -> merge X (merge X Y) = merge X Y).
Proof.
  assert (Heq : merge X (merge X Y) =
    X ++ filter (fun a => id a = "") X ++ filter (fun a => id a ∉ existing_ids X) Y).
  { unfold merge at 1. unfold merge. rewrite filter_app, filter_not_in_ids_self.
    f_equal. f_equal. rewrite list_filter_filter. apply list_filter_iff. tauto. }
  split; [exact Heq |].
  intros Hall. rewrite Heq. unfold merge. f_equal.
  assert (Hnil : filter (fun a => id a = "") X = []).
  { clear Heq. induction Hall as [| a l Ha _ IH]; [done |].
    rewrite filter_cons_False by done. exact IH. }
  rewrite Hnil. reflexivity.
Qed.

(** ** The crawl loop *)

(** An item of [resultList] with the given [postId]. *)
Definition raw_item (post_id : string) : json :=
  JObj [("postId", JStr post_id); ("title", JStr "note"); ("lastEditTime", JStr "");
        ("dateline", JStr "1700000000")].

Definition page_payload (total : Z) (items : list json) : json :=
  JObj [("code", JStr "200");
        ("data", JObj [("totalCount", JNum total); ("resultList", JArr items)])].

(** Scenario A of the spec: 14 posts, 12 on page 1 and 2 on page 2. *)
Definition scenario_a_net (c : spider_config) (p : Z) : json :=
  if Z.eqb p 1 then page_payload 14 (repeat (raw_item "p1") 12)
  else if Z.eqb p 2 then page_payload 14 (repeat (raw_item "p2") 2)
  else JObj [].

Definition original_config : spider_config :=
  mk_config "0157117713657966001" "0672154839186846001" "original".

Definition fresh_spider : spider := mk_spider [] ∅ None.

(** C5: when the page parses into fewer than [page_size] records, the
    iteration never goes on to the next page, whatever [totalCount] says:
    it ends the loop (or raises).  In scenario A the loop requests pages 1
    and 2 only and collects 14 records. *)
Theorem short_page_ends_loop (fetch : Z -> json) (incremental : bool)
  (filter_time : option Z) (st : loop_state) (arts : list article) :
  invalid_payload (fetch (page_index st)) = Ok false ->
  parse_articles (fetch (page_index st)) = Ok arts ->
  Z.of_nat (length arts) < page_size ->
  (forall o, loop_body fetch incremental filter_time st = Ok o ->
     exists st', o = Done st' /\ page_index st' = page_index st) /\
  (exists st', crawl scenario_a_net 100 original_config false None fresh_spider = Ok st' /\
     events st' = [EFetch 1; EFetch 2] /\ length (all_articles (sp st')) = 14%nat).
Proof.
  intros Hinv Hparse Hlen. split.
  - intros o Ho. unfold loop_body in Ho. rewrite Hinv, bind_ok in Ho.
    destruct (total_count_break (fetch (page_index st)) (page_index st)) as [[|] |];
      rewrite ?bind_ok in Ho; [| | discriminate].
    + injection Ho as <-. eauto.
    + rewrite Hparse, bind_ok in Ho.
      destruct (incremental || _).
      * destruct (filter_new_articles _ arts filter_time) as [[filtered ids] |];
          [| discriminate].
        rewrite !bind_ok in Ho. apply Z.ltb_lt in Hlen. rewrite Hlen in Ho.
        injection Ho as <-. eauto.
      * rewrite bind_ok in Ho. apply Z.ltb_lt in Hlen. rewrite Hlen in Ho.
        injection Ho as <-. eauto.
  - eexists. split; [vm_compute; reflexivity |]. split; reflexivity.
Qed.

(** An invalid payload (falsy, without a ["data"] key, or whose ["data"]
    lacks ["resultList"]) only moves to the next page. *)
Lemma invalid_payload_skips (fetch : Z -> json) (incremental : bool)
  (filter_time : option Z) (st : loop_state) :
  invalid_payload (fetch (page_index st)) = Ok true ->
  loop_body fetch incremental filter_time st =
    Ok (Continue (mk_loop (sp st) (page_index st + 1) (events st ++ [EFetch (page_index st)]))).
Proof. intros Hinv. unfold loop_body. rewrite Hinv. reflexivity. Qed.

Lemma invalid_payload_examples :
  invalid_payload (JObj []) = Ok true /\
  invalid_payload (JObj [("code", JStr "500")]) = Ok true /\
  invalid_payload (JObj [("data", JObj [("totalCount", JNum 3)])]) = Ok true.
Proof. repeat split. Qed.

(** A response whose ["data"] is [null]. *)
Definition null_data_payload : json := JObj [("code", JStr "401"); ("data", JNull)].

(** C6 (code_bug): for a payload whose ["data"] is [null], the validity
    check evaluates ["resultList" not in None], which raises [TypeError]:
    the loop stops with the exception instead of skipping the page. *)
Theorem null_data_payload_raises :
  invalid_payload null_data_payload = Raise TypeError /\
  loop_body (fun _ => null_data_payload) true None (mk_loop fresh_spider 1 []) = Raise TypeError /\
  crawl (fun _ _ => null_data_payload) 100 original_config false None fresh_spider
    = Raise TypeError.
Proof. vm_compute. repeat split. Qed.

(** C8: in incremental mode, a page past the third whose records are all
    filtered out only adds the catch-up log line: when neither the
    [totalCount] rule nor the short-page rule fires, the iteration goes
    on to the next page, and the loop runs that page when it is within
    [max_pages]. *)
Theorem catch_up_hint_does_not_stop (fetch : Z -> json) (filter_time : option Z)
  (max_pages : Z) (st : loop_state) (arts : list article) (ids : gset string) :
  invalid_payload (fetch (page_index st)) = Ok false ->
  total_count_break (fetch (page_index st)) (page_index st) = Ok false ->
  parse_articles (fetch (page_index st)) = Ok arts ->
  page_size <= Z.of_nat (length arts) ->
  filter_new_articles (existing_article_ids (sp st)) arts filter_time = Ok ([], ids) ->
  3 < page_index st ->
  let st' := mk_loop (mk_spider (all_articles (sp st) ++ []) ids (last_crawl_time (sp st)))
               (page_index st + 1)
               (events st ++ [EFetch (page_index st)] ++ [ECatchUpHint (page_index st)]) in
  loop_body fetch true filter_time st = Ok (Continue st') /\
  (forall fuel, page_index st <= max_pages ->
     crawl_loop fetch true filter_time max_pages (S fuel) st =
     crawl_loop fetch true filter_time max_pages fuel st').
Proof.
  intros Hinv Htc Hparse Hlen Hfilter Hp st'.
  assert (Hbody : loop_body fetch true filter_time st = Ok (Continue st')).
  { unfold loop_body. rewrite Hinv, bind_ok, Htc, bind_ok, Hparse, bind_ok.
    simpl orb. rewrite Hfilter, !bind_ok.
    apply Z.ltb_lt in Hp. simpl length. rewrite Hp. simpl andb.
    assert (Hl : (Z.of_nat (length arts) <? page_size) = false) by (apply Z.ltb_ge; lia).
    rewrite Hl. unfold st'. rewrite app_assoc. reflexivity. }
  split; [exact Hbody |].
  intros fuel Hmax. simpl. apply Z.leb_le in Hmax. rewrite Hmax, Hbody. reflexivity.
Qed.

(** ** The accumulator across calls *)

Lemma loop_body_prefix (fetch : Z -> json) (incremental : bool) (filter_time : option Z)
  (st : loop_state) (o : outcome) :
  loop_body fetch incremental filter_time st = Ok o ->
  match o with Continue st' | Done st' => all_articles (sp st) `prefix_of` all_articles (sp st') end.
Proof.
  intros Ho. unfold loop_body in Ho.
  destruct (invalid_payload (fetch (page_index st))) as [[|] |]; rewrite ?bind_ok in Ho;
    [injection Ho as <-; done | | discriminate].
  destruct (total_count_break _ _) as [[|] |]; rewrite ?bind_ok in Ho;
    [injection Ho as <-; done | | discriminate].
  destruct (parse_articles _) as [arts |]; rewrite ?bind_ok in Ho; [| discriminate].
  destruct (incremental || _).
  - destruct (filter_new_articles _ arts filter_time) as [[filtered ids] |];
      rewrite ?bind_ok in Ho; [| discriminate].
    destruct (_ <? page_size); injection Ho as <-; simpl; by apply prefix_app_r.
  - rewrite bind_ok in Ho.
    destruct (_ <? page_size); injection Ho as <-; simpl; by apply prefix_app_r.
Qed.

Lemma crawl_loop_prefix (fetch : Z -> json) (incremental : bool) (filter_time : option Z)
  (max_pages : Z) (fuel : nat) (st st' : loop_state) :
  crawl_loop fetch incremental filter_time max_pages fuel st = Ok st' ->
  all_articles (sp st) `prefix_of` all_articles (sp st').
Proof.
  revert st. induction fuel as [| f IH]; intros st H; simpl in H.
  - by injection H as <-.
  - destruct (page_index st <=? max_pages); [| by injection H as <-].
    destruct (loop_body fetch incremental filter_time st) as [o |] eqn:Hb; [| discriminate].
    rewrite bind_ok in H. pose proof (loop_body_prefix _ _ _ _ _ Hb) as Hp.
    destruct o as [s1 | s1].
    + etrans; [exact Hp | exact (IH _ H)].
    + by injection H as <-.
Qed.

Lemma dict_get_set {A} (d : list (string * A)) (k name : string) (v : A) :
  dict_get (dict_set d k v) name = if String.eqb name k then Some v else dict_get d name.
Proof.
  induction d as [| [k' v'] r IH]; simpl.
  - reflexivity.
  - destruct (String.eqb k k') eqn:Hk; simpl.
    + apply String.eqb_eq in Hk as ->. by destruct (String.eqb name k').
    + rewrite IH. destruct (String.eqb name k') eqn:Hn, (String.eqb name k) eqn:Hm; try reflexivity.
      apply String.eqb_eq in Hn, Hm. subst. rewrite String.eqb_refl in Hk. discriminate.
Qed.

Lemma batch_loop_entries (net : spider_config -> Z -> json)
  (configs : list (string * spider_config)) (max_pages : Z) (incremental : bool)
  (since_time : option Z) (names : list string) (s s' : spider)
  (results results' : list (string * list article)) :
  batch_loop net configs max_pages incremental since_time names s results = Ok (s', results') ->
  forall name l, dict_get results' name = Some l ->
    dict_get results name = Some l \/
    exists config s0 s1, dict_get configs name = Some config /\
      get_all_articles net max_pages config incremental since_time (set_all_articles s0 []) =
        Ok (s1, l).
Proof.
  revert s results. induction names as [| n rest IH]; intros s results H name l Hl; simpl in H.
  - injection H as <- <-. by left.
  - destruct (dict_get configs n) as [config |] eqn:Hc.
    + destruct (get_all_articles net max_pages config incremental since_time
                  (set_all_articles s [])) as [[s1 arts] |] eqn:Hg; [| discriminate].
      rewrite bind_ok in H.
      destruct (IH _ _ H name l Hl) as [Hold | Hnew]; [| by right].
      rewrite dict_get_set in Hold. destruct (String.eqb name n) eqn:Hn.
      * injection Hold as <-. apply String.eqb_eq in Hn as ->. right. eauto.
      * by left.
    + exact (IH _ _ H name l Hl).
Qed.

(** C10: [get_all_articles] returns the spider's whole [all_articles], so
    what a first call returned is a prefix of what a second call on the
    same spider returns; [get_all_articles_batch] starts every
    configuration from an empty [all_articles], so each entry of its
    result is exactly what a run of that configuration collected from an
    empty accumulator. *)
Theorem accumulator_shared_batch_reset (net : spider_config -> Z -> json)
  (max_pages max_pages' : Z) (config config' : spider_config)
  (incremental incremental' : bool) (since_time since_time' : option Z)
  (s s1 s2 : spider) (l1 l2 : list article)
  (configs : list (string * spider_config)) (names : option (list string))
  (sb : spider) (results : list (string * list article)) :
  (get_all_articles net max_pages config incremental since_time s = Ok (s1, l1) ->
   get_all_articles net max_pages' config' incremental' since_time' s1 = Ok (s2, l2) ->
   l1 = all_articles s1 /\ all_articles s `prefix_of` l1 /\ l1 `prefix_of` l2) /\
  (get_all_articles_batch net configs max_pages incremental since_time names s = Ok (sb, results) ->
   forall name l, dict_get results name = Some l ->
     exists cfg s0 s0', dict_get configs name = Some cfg /\
       get_all_articles net max_pages cfg incremental since_time (set_all_articles s0 []) =
         Ok (s0', l) /\ l = all_articles s0').
Proof.
  split.
  - intros H1 H2. unfold get_all_articles in H1, H2.
    destruct (crawl net max_pages config incremental since_time s) as [st1 |] eqn:Hc1;
      [| discriminate].
    destruct (crawl net max_pages' config' incremental' since_time' s1) as [st2 |] eqn:Hc2;
      [| discriminate].
    injection H1 as <- <-. injection H2 as <- <-.
    apply crawl_loop_prefix in Hc1, Hc2. simpl in Hc1, Hc2. auto.
  - intros H name l Hl. unfold get_all_articles_batch in H.
    destruct (batch_loop_entries _ _ _ _ _ _ _ _ _ _ H name l Hl)
      as [Hnone | (cfg & s0 & s0' & Hcfg & Hg)]; [discriminate |].
    exists cfg, s0, s0'. split; [done | split; [done |]].
    unfold get_all_articles in Hg.
    destruct (crawl _ _ _ _ _ _) as [st |]; [| discriminate].
    by injection Hg as <- <-.
Qed.

(** ** The crawl history *)

Definition history_of (now_iso : string) (s : spider) : json :=
  JObj [("last_crawl_time", JStr now_iso);
        ("total_articles", JNum (Z.of_nat (length (all_articles s))))].

(** A disk with room for ten more characters, holding a saved history. *)
Definition full_disk_fs : fs :=
  mk_fs [("data/crawl_history.json",
          Complete (history_of "2026-10-16T00:00:00+00:00" fresh_spider))]
        (fun _ => true) (fun _ => Some 10%nat).

(** C9 (counterexample): when the write of the history fails on a full
    disk, [save_crawl_history] neither completes the write nor raises: it
    logs the failure and returns normally, and the history file, which
    [json.load] read before, now holds ten characters it cannot decode. *)
Lemma save_history_swallows_failure :
  save_crawl_history "data/crawl_history.json" "2026-10-17T00:00:00+00:00" fresh_spider full_disk_fs
    = Ok (set_files full_disk_fs
            [("data/crawl_history.json",
              Truncated (history_of "2026-10-17T00:00:00+00:00" fresh_spider) 10%nat)],
          [LogSaveFailed "data/crawl_history.json"]) /\
  json_load (Complete (history_of "2026-10-16T00:00:00+00:00" fresh_spider)) <> None /\
  json_load (Truncated (history_of "2026-10-17T00:00:00+00:00" fresh_spider) 10%nat) = None.
Proof. split; [| split]; [vm_compute; reflexivity | discriminate | reflexivity]. Qed.

(** C9 (amended): [save_crawl_history] never raises.  Either it writes the
    whole history and logs the save; or it logs a failure and the files
    are unchanged (the failure came before [open]); or it logs a failure
    and the history file now holds a prefix of the history's text that
    [json.load] rejects. *)
Theorem save_history_never_raises (path now_iso : string) (s : spider) (f : fs) :
  let h := history_of now_iso s in
  exists f' log,
    save_crawl_history path now_iso s f = Ok (f', [log]) /\
    can_open f' = can_open f /\ write_limit f' = write_limit f /\
    ((log = LogSaved path /\ files f' = dict_set (files f) path (Complete h)) \/
     (log = LogSaveFailed path /\ files f' = files f) \/
     (log = LogSaveFailed path /\
      exists n, (n <= length (dump_text h))%nat /\
        files f' = dict_set (files f) path (Truncated h n) /\
        json_load (Truncated h n) = None)).
Proof.
  intros h0. unfold h0, history_of, save_crawl_history, save_json.
  set (h := JObj _).
  destruct (negb (has_dir path && can_open f path)).
  { eexists _, _. split; [reflexivity |]. split_and!; [done | done |]. by right; left. }
  destruct (write_limit f path) as [n |].
  - destruct (n <? length (dump_text h))%nat eqn:Hn.
    { eexists _, _. split; [reflexivity |]. split_and!; [done | done |].
      right; right. split; [done |]. exists n. split_and!; [| done | done].
      apply Nat.ltb_lt in Hn. lia. }
    destruct (dump_ok h).
    { eexists _, _. split; [reflexivity |]. split_and!; [done | done |]. by left. }
    eexists _, _. split; [reflexivity |]. split_and!; [done | done |].
    right; right. split; [done |]. exists (length (dump_text h)). split_and!; done.
  - destruct (dump_ok h).
    { eexists _, _. split; [reflexivity |]. split_and!; [done | done |]. by left. }
    eexists _, _. split; [reflexivity |]. split_and!; [done | done |].
    right; right. split; [done |]. exists (length (dump_text h)). split_and!; done.
Qed.

(** * Further properties *)

Definition nonempty_ids (l : list article) : list string :=
  filter (fun i => i <> "") (map id l).

Lemma nonempty_ids_cons (a : article) (l : list article) :
  nonempty_ids (a :: l) = if decide (id a = "") then nonempty_ids l else id a :: nonempty_ids l.
Proof.
  unfold nonempty_ids. simpl. rewrite filter_cons.
  destruct (decide (id a = "")) as [E | E]; [rewrite decide_False by tauto | rewrite decide_True by done]; done.
Qed.

Lemma filter_new_articles_invariants (seen : gset string) (arts : list article)
  (since_time : option Z) (out : list article) (seen' : gset string) :
  filter_new_articles seen arts since_time = Ok (out, seen') ->
  out `sublist_of` arts /\
  seen' = seen ∪ list_to_set (nonempty_ids out) /\
  NoDup (nonempty_ids out) /\
  (forall i, i ∈ nonempty_ids out -> i ∉ seen) /\
  (forall a, a ∈ out -> _is_article_newer a since_time = Ok true).
Proof.
  revert seen out seen'. induction arts as [| a rest IH]; intros seen out seen' H.
  - simpl in H. injection H as <- <-. cbn. split_and!; try constructor; set_solver.
  - simpl in H. unfold filter_one in H.
    destruct (negb (String.eqb (id a) "") && bool_decide (id a ∈ seen)) eqn:Hdup.
    + rewrite bind_ok in H.
      destruct (filter_new_articles seen rest since_time) as [[o s2] |] eqn:Hr; [| discriminate].
      simpl in H. injection H as <- <-.
      destruct (IH _ _ _ Hr) as (Hs & ? & ? & ? & ?). split_and!; auto.
      by apply sublist_cons.
    + destruct (_is_article_newer a since_time) as [newer |] eqn:Hnew; [| discriminate].
      rewrite bind_ok in H. destruct newer; simpl in H.
      * rewrite ?bind_ok in H.
        set (seen1 := if negb (String.eqb (id a) "") then {[id a]} ∪ seen else seen) in H.
        destruct (filter_new_articles seen1 rest since_time) as [[o s2] |] eqn:Hr; [| discriminate].
        simpl in H. injection H as <- <-.
        destruct (IH _ _ _ Hr) as (Hs & Heq & Hnd & Hfr & Hnw).
        rewrite nonempty_ids_cons.
        split_and!.
        -- by apply sublist_skip.
        -- rewrite Heq. unfold seen1.
           destruct (decide (id a = "")) as [E | E].
           ++ rewrite E. simpl. done.
           ++ apply String.eqb_neq in E as E'. rewrite E'. simpl. set_solver.
        -- destruct (decide (id a = "")) as [E | E]; [done |].
           constructor; [| done]. intros Hin. apply (Hfr _ Hin). unfold seen1.
           apply String.eqb_neq in E. rewrite E. simpl. set_solver.
        -- intros i Hi. destruct (decide (id a = "")) as [E | E].
           ++ apply Hfr in Hi. unfold seen1 in Hi. rewrite E in Hi. exact Hi.
           ++ apply elem_of_cons in Hi as [-> | Hi].
              ** apply String.eqb_neq in E as E'. rewrite E' in Hdup. simpl in Hdup.
                 by apply bool_decide_eq_false in Hdup.
              ** apply Hfr in Hi. unfold seen1 in Hi.
                 apply String.eqb_neq in E. rewrite E in Hi. simpl in Hi. set_solver.
        -- intros x Hx. apply elem_of_cons in Hx as [-> | Hx]; [done | auto].
      * rewrite ?bind_ok in H.
        destruct (filter_new_articles seen rest since_time) as [[o s2] |] eqn:Hr; [| discriminate].
        simpl in H. injection H as <- <-.
        destruct (IH _ _ _ Hr) as (Hs & ? & ? & ? & ?). split_and!; auto.
        by apply sublist_cons.
Qed.

(** X5: [filter_new_articles] returns a subsequence of its input; the
    final id set is the initial one plus the non-empty ids of the
    returned records; those ids are pairwise distinct and none was in the
    initial set; every returned record passes the time filter. *)
Theorem filter_new_articles_output_invariants (seen : gset string) (arts : list article)
  (since_time : option Z) (out : list article) (seen' : gset string) :
  filter_new_articles seen arts since_time = Ok (out, seen') ->
  out `sublist_of` arts /\
  seen' = seen ∪ list_to_set (nonempty_ids out) /\
  NoDup (nonempty_ids out) /\
  (forall i, i ∈ nonempty_ids out -> i ∉ seen) /\
  (forall a, a ∈ out -> _is_article_newer a since_time = Ok true).
Proof. apply filter_new_articles_invariants. Qed.

Lemma filter_new_articles_keeps_all (S : gset string) (since_time : option Z) (l : list article) :
  (forall a, a ∈ l -> (id a <> "" -> id a ∈ S) /\ _is_article_newer a since_time = Ok true) ->
  filter_new_articles S l since_time = Ok (filter (fun a => id a = "") l, S).
Proof.
  induction l as [| a l IH]; intros Hl; [done |].
  destruct (Hl a ltac:(by left)) as [Hin Hnew].
  rewrite filter_cons. simpl. unfold filter_one.
  destruct (decide (id a = "")) as [E | E].
  - rewrite E. simpl. rewrite Hnew, bind_ok. simpl.
    rewrite IH by (intros x Hx; apply Hl; by right). reflexivity.
  - apply String.eqb_neq in E as E'. rewrite E'. simpl.
    rewrite bool_decide_eq_true_2 by auto. simpl.
    rewrite IH by (intros x Hx; apply Hl; by right). reflexivity.
Qed.

(** X6: filtering the accepted records again, against the final id set
    and with the same [since_time], keeps exactly those of empty id and
    leaves the id set as it is. *)
Theorem filter_new_articles_refilter (seen : gset string) (arts : list article)
  (since_time : option Z) (out : list article) (seen' : gset string) :
  filter_new_articles seen arts since_time = Ok (out, seen') ->
  filter_new_articles seen' out since_time = Ok (filter (fun a => id a = "") out, seen').
Proof.
  intros H. destruct (filter_new_articles_invariants _ _ _ _ _ H) as (_ & Heq & _ & _ & Hnew).
  apply filter_new_articles_keeps_all. intros a Ha. split; [| auto].
  intros Hne. rewrite Heq. apply elem_of_union_r, elem_of_list_to_set.
  unfold nonempty_ids. apply list_elem_of_filter. split; [done |].
  apply list_elem_of_In, in_map, list_elem_of_In. done.
Qed.

(** X4: a record accepted by the time filter for a threshold is
    accepted for every earlier threshold. *)
Theorem is_article_newer_antitone (a : article) (since since' : Z) :
  _is_article_newer a (Some since) = Ok true -> since' <= since ->
  _is_article_newer a (Some since') = Ok true.
Proof.
  unfold _is_article_newer.
  destruct (_parse_timestamp (publish_time a)) as [pp |]; [| discriminate].
  destruct (_parse_timestamp (update_time a)) as [pu |]; [| discriminate].
  rewrite !bind_ok. intros H Hle.
  destruct (match pu with Some u => Some u | None => pp end) as [t |]; [| done].
  injection H as H. f_equal. apply Z.ltb_lt. apply Z.ltb_lt in H. lia.
Qed.


Lemma stamp_bounds :
  dt_lo = -62135596800 /\ dt_hi = 253402300800 /\
  gm_lo = -67768040609740800 /\ gm_hi = 67768036191676800 /\
  time_t_lo = - 2 ^ 63 /\ time_t_hi = 2 ^ 63.
Proof. repeat split; vm_compute; reflexivity. Qed.

Ltac decide_ltb :=
  repeat match goal with
  | |- context [?a <? ?b] => destruct (Z.ltb_spec a b); try lia
  | |- context [?a <=? ?b] => destruct (Z.leb_spec a b); try lia
  end.

(** A value [int] reads as a non-zero integer is truthy: the empty
    string is not an integer. *)
Lemma py_int_truthy (v : json) (t : Z) :
  py_int v = Some t -> t <> 0 -> truthy v = true.
Proof.
  destruct v as [| b | z | str | l | kvs]; simpl; try discriminate.
  - destruct b; [done |]. intros [= <-]. done.
  - intros [= ->] Hz. apply negb_true_iff, Z.eqb_neq. exact Hz.
  - intros Hs _. apply negb_true_iff, String.eqb_neq. intros ->. discriminate.
Qed.

Lemma parse_timestamp_int (v : json) (t : Z) :
  py_int v = Some t -> t <> 0 ->
  _parse_timestamp v = if 10 ^ 12 <? t then from_ms t else from_secs t.
Proof.
  intros Hv Ht. unfold _parse_timestamp. rewrite (py_int_truthy v t Hv Ht), Hv. reflexivity.
Qed.

(** X2: for an instant after 2001-09-09 01:46:40 UTC and before year
    10000, the stamp in milliseconds and the stamp in seconds parse to
    the same instant, whether each is given as a number or as a string
    that [int] reads. *)
Theorem parse_timestamp_ms_matches_seconds (v_ms v_s : json) (s : Z) :
  py_int v_ms = Some (s * 1000) -> py_int v_s = Some s ->
  10 ^ 9 < s < dt_hi ->
  _parse_timestamp v_ms = Ok (Some (s * 1000000)) /\
  _parse_timestamp v_s = Ok (Some (s * 1000000)).
Proof.
  destruct stamp_bounds as (Hlo & Hhi & Hglo & Hghi & Htlo & Hthi).
  intros Hms Hsec Hs. rewrite Hhi in Hs.
  rewrite (parse_timestamp_int v_ms _ Hms) by lia.
  rewrite (parse_timestamp_int v_s _ Hsec) by lia.
  unfold from_ms, from_secs.
  rewrite Z.div_mul by lia. rewrite Hlo, Hhi, Hglo, Hghi, Htlo, Hthi.
  split.
  - decide_ltb. f_equal. f_equal. lia.
  - decide_ltb. reflexivity.
Qed.

(** X3: a stamp from 253402300800 (year 10000) to 10^12, given as a
    number or as a string that [int] reads, is read as seconds and falls
    outside [datetime]: it parses as an unknown time, so a record with
    such an update time and no publish time passes the time filter
    whatever the threshold. *)
Theorem far_future_seconds_unknown (v : json) (t : Z) (a : article) (since_time : option Z) :
  py_int v = Some t -> dt_hi <= t <= 10 ^ 12 ->
  _parse_timestamp v = Ok None /\
  (update_time a = v -> _parse_timestamp (publish_time a) = Ok None ->
   _is_article_newer a since_time = Ok true).
Proof.
  destruct stamp_bounds as (Hlo & Hhi & Hglo & Hghi & Htlo & Hthi).
  intros Hv Ht.
  assert (Hp : _parse_timestamp v = Ok None).
  { rewrite Hhi in Ht. rewrite (parse_timestamp_int v t Hv) by lia.
    unfold from_secs. rewrite Hlo, Hhi, Hglo, Hghi, Htlo, Hthi.
    decide_ltb. reflexivity. }
  split; [exact Hp |].
  intros Hu Hpub. destruct since_time as [since |]; [| reflexivity].
  unfold _is_article_newer. rewrite Hpub, bind_ok, Hu, Hp, bind_ok. reflexivity.
Qed.

Definition item_post_id (item : json) : option string :=
  match item with
  | JObj kvs =>
      match obj_lookup "postId" kvs with
      | None => Some ""
      | Some (JStr s) => Some s
      | Some _ => None
      end
  | _ => None
  end.

Lemma parse_items_ids (items : list json) :
  Forall (fun it => is_Some (item_post_id it)) items ->
  exists arts, parse_items items = Ok arts /\ map (fun a => Some (id a)) arts = map item_post_id items.
Proof.
  induction 1 as [| it rest Hit Hrest IH]; [by exists [] |].
  destruct IH as (arts & Hp & Hm).
  destruct it as [| | | | | kvs]; try (destruct Hit; discriminate).
  simpl in Hit. simpl.
  destruct (obj_lookup "postId" kvs) as [[| | | s | |] |] eqn:Hpid;
    try (destruct Hit; discriminate).
  - exists (mk_article s
              (match obj_lookup "title" kvs with Some x => x | None => JStr "" end)
              (match obj_lookup "lastEditTime" kvs with Some x => x | None => JStr "" end)
              (match obj_lookup "dateline" kvs with Some x => x | None => JStr "" end) :: arts).
    unfold parse_item, py_get. rewrite Hpid. simpl. rewrite Hp. simpl. by rewrite Hm.
  - exists (mk_article ""
              (match obj_lookup "title" kvs with Some x => x | None => JStr "" end)
              (match obj_lookup "lastEditTime" kvs with Some x => x | None => JStr "" end)
              (match obj_lookup "dateline" kvs with Some x => x | None => JStr "" end) :: arts).
    unfold parse_item, py_get. rewrite Hpid. simpl. rewrite Hp. simpl. by rewrite Hm.
Qed.

(** X7: a payload without ["data"], or whose ["data"] has no
    ["resultList"], gives no record; a ["resultList"] of dicts whose
    ["postId"] is a string or absent gives one record per item, in order,
    with the item's [postId] (or [""]) as id. *)
Theorem parse_articles_one_record_per_item (kvs dkvs : list (string * json)) :
  (obj_lookup "data" kvs = None -> parse_articles (JObj kvs) = Ok []) /\
  (obj_lookup "data" kvs = Some (JObj dkvs) -> obj_lookup "resultList" dkvs = None ->
   parse_articles (JObj kvs) = Ok []) /\
  (forall items, obj_lookup "data" kvs = Some (JObj dkvs) ->
   obj_lookup "resultList" dkvs = Some (JArr items) ->
   Forall (fun it => is_Some (item_post_id it)) items ->
   exists arts, parse_articles (JObj kvs) = Ok arts /\
     map (fun a => Some (id a)) arts = map item_post_id items).
Proof.
  unfold parse_articles, py_contains, py_getitem. split_and!.
  - intros H. rewrite H. reflexivity.
  - intros H1 H2. rewrite H1. simpl. rewrite H2. reflexivity.
  - intros items H1 H2 Hf. rewrite H1. simpl. rewrite H2. simpl.
    exact (parse_items_ids items Hf).
Qed.

Fixpoint fetched_pages (evs : list event) : list Z :=
  match evs with
  | [] => []
  | EFetch p :: r => p :: fetched_pages r
  | ECatchUpHint _ :: r => fetched_pages r
  end.

Lemma fetched_pages_app (l1 l2 : list event) :
  fetched_pages (l1 ++ l2) = fetched_pages l1 ++ fetched_pages l2.
Proof. induction l1 as [| [p | p] l1 IH]; simpl; rewrite ?IH; reflexivity. Qed.

Lemma loop_body_pages (fetch : Z -> json) (incremental : bool) (filter_time : option Z)
  (st : loop_state) (o : outcome) :
  loop_body fetch incremental filter_time st = Ok o ->
  match o with
  | Continue st' => page_index st' = page_index st + 1 /\
      fetched_pages (events st') = fetched_pages (events st) ++ [page_index st]
  | Done st' => page_index st' = page_index st /\
      fetched_pages (events st') = fetched_pages (events st) ++ [page_index st]
  end.
Proof.
  intros Ho. unfold loop_body in Ho.
  destruct (invalid_payload (fetch (page_index st))) as [[|] |]; rewrite ?bind_ok in Ho;
    [injection Ho as <-; simpl; by rewrite fetched_pages_app | | discriminate].
  destruct (total_count_break _ _) as [[|] |]; rewrite ?bind_ok in Ho;
    [injection Ho as <-; simpl; by rewrite fetched_pages_app | | discriminate].
  destruct (parse_articles _) as [arts |]; rewrite ?bind_ok in Ho; [| discriminate].
  destruct (incremental || _).
  - destruct (filter_new_articles _ arts filter_time) as [[filtered ids] |];
      rewrite ?bind_ok in Ho; [| discriminate].
    destruct (incremental && _ && _);
      destruct (_ <? page_size); injection Ho as <-; simpl;
      rewrite ?fetched_pages_app; simpl; rewrite ?app_nil_r; done.
  - rewrite bind_ok in Ho.
    destruct (_ <? page_size); injection Ho as <-; simpl; by rewrite fetched_pages_app.
Qed.

Lemma seqZ_snoc (p : Z) : 1 <= p -> seqZ 1 (p - 1) ++ [p] = seqZ 1 p.
Proof.
  intros Hp. replace (seqZ 1 p) with (seqZ 1 ((p - 1) + 1)) by (f_equal; lia).
  rewrite seqZ_app by lia. f_equal. unfold seqZ. simpl. f_equal. lia.
Qed.

Lemma crawl_loop_pages (fetch : Z -> json) (incremental : bool) (filter_time : option Z)
  (max_pages : Z) (fuel : nat) (st st' : loop_state) :
  crawl_loop fetch incremental filter_time max_pages fuel st = Ok st' ->
  fetched_pages (events st) = seqZ 1 (page_index st - 1) ->
  1 <= page_index st -> page_index st - 1 <= Z.max 0 max_pages ->
  exists k, page_index st - 1 <= k <= Z.max 0 max_pages /\ fetched_pages (events st') = seqZ 1 k.
Proof.
  revert st. induction fuel as [| f IH]; intros st H Hf H1 Hm; simpl in H.
  - injection H as <-. exists (page_index st - 1). split; [lia | done].
  - destruct (Z.leb_spec (page_index st) max_pages) as [Hle |]; [| injection H as <-; exists (page_index st - 1); split; [lia | done]].
    destruct (loop_body fetch incremental filter_time st) as [o |] eqn:Hb; [| discriminate].
    rewrite bind_ok in H. pose proof (loop_body_pages _ _ _ _ _ Hb) as Hp.
    destruct o as [s1 | s1]; destruct Hp as [Hpi Hfe].
    + rewrite Hf, seqZ_snoc in Hfe by lia.
      destruct (IH s1 H) as (k & Hk & Hks); [rewrite Hfe, Hpi; f_equal; lia | lia | lia |].
      exists k. split; [lia | done].
    + injection H as <-. exists (page_index st). split; [lia |].
      rewrite Hfe, Hf. apply seqZ_snoc. done.
Qed.

(** X8: a crawl that returns requests the pages 1, 2, ..., k in order,
    each once, with k at most [max_pages] (none when [max_pages <= 0]). *)
Theorem crawl_requests_consecutive_pages (net : spider_config -> Z -> json) (max_pages : Z)
  (config : spider_config) (incremental : bool) (since_time : option Z) (s : spider)
  (st : loop_state) :
  crawl net max_pages config incremental since_time s = Ok st ->
  exists k, 0 <= k <= Z.max 0 max_pages /\ fetched_pages (events st) = seqZ 1 k.
Proof.
  unfold crawl. intros H.
  destruct (crawl_loop_pages _ _ _ _ _ _ _ H) as (k & Hk & Hks);
    [reflexivity | simpl; lia | simpl; lia |].
  exists k. split; [simpl in Hk; lia | done].
Qed.

Definition fresh_extension (s s' : spider) : Prop :=
  exists added,
    all_articles s' = all_articles s ++ added /\
    existing_article_ids s' = existing_article_ids s ∪ list_to_set (nonempty_ids added) /\
    NoDup (nonempty_ids added) /\
    (forall i, i ∈ nonempty_ids added -> i ∉ existing_article_ids s) /\
    last_crawl_time s' = last_crawl_time s.

Lemma fresh_extension_refl (s : spider) : fresh_extension s s.
Proof.
  exists []. cbn. rewrite app_nil_r. split_and!; try done; [set_solver | constructor | set_solver].
Qed.

Lemma nonempty_ids_app (l1 l2 : list article) :
  nonempty_ids (l1 ++ l2) = nonempty_ids l1 ++ nonempty_ids l2.
Proof. unfold nonempty_ids. by rewrite map_app, filter_app. Qed.

Lemma fresh_extension_trans (s1 s2 s3 : spider) :
  fresh_extension s1 s2 -> fresh_extension s2 s3 -> fresh_extension s1 s3.
Proof.
  intros (a1 & Hl1 & Hi1 & Hn1 & Hf1 & Ht1) (a2 & Hl2 & Hi2 & Hn2 & Hf2 & Ht2).
  exists (a1 ++ a2). rewrite nonempty_ids_app. split_and!.
  - by rewrite Hl2, Hl1, app_assoc.
  - rewrite Hi2, Hi1, list_to_set_app_L. set_solver.
  - apply NoDup_app. split_and!; [done | | done].
    intros x Hx1 Hx2. apply (Hf2 x Hx2). rewrite Hi1. apply elem_of_union_r.
    by apply elem_of_list_to_set.
  - intros i Hi. apply elem_of_app in Hi as [Hi | Hi]; [auto |].
    intros Hin. apply (Hf2 i Hi). rewrite Hi1. set_solver.
  - by rewrite Ht2, Ht1.
Qed.

Lemma loop_body_fresh (fetch : Z -> json) (incremental : bool) (filter_time : option Z)
  (st : loop_state) (o : outcome) :
  incremental || bool_decide (is_Some filter_time) = true ->
  loop_body fetch incremental filter_time st = Ok o ->
  match o with Continue st' | Done st' => fresh_extension (sp st) (sp st') end.
Proof.
  intros Hmode Ho. unfold loop_body in Ho.
  destruct (invalid_payload (fetch (page_index st))) as [[|] |]; rewrite ?bind_ok in Ho;
    [injection Ho as <-; apply fresh_extension_refl | | discriminate].
  destruct (total_count_break _ _) as [[|] |]; rewrite ?bind_ok in Ho;
    [injection Ho as <-; apply fresh_extension_refl | | discriminate].
  destruct (parse_articles _) as [arts |]; rewrite ?bind_ok in Ho; [| discriminate].
  rewrite Hmode in Ho.
  destruct (filter_new_articles _ arts filter_time) as [[filtered ids] |] eqn:Hf;
    rewrite ?bind_ok in Ho; [| discriminate].
  destruct (filter_new_articles_invariants _ _ _ _ _ Hf) as (_ & Heq & Hnd & Hfr & _).
  assert (Hx : fresh_extension (sp st)
                 (mk_spider (all_articles (sp st) ++ filtered) ids (last_crawl_time (sp st)))).
  { exists filtered. split_and!; done. }
  destruct (_ <? page_size); injection Ho as <-; exact Hx.
Qed.

Lemma crawl_loop_fresh (fetch : Z -> json) (incremental : bool) (filter_time : option Z)
  (max_pages : Z) (fuel : nat) (st st' : loop_state) :
  incremental || bool_decide (is_Some filter_time) = true ->
  crawl_loop fetch incremental filter_time max_pages fuel st = Ok st' ->
  fresh_extension (sp st) (sp st').
Proof.
  intros Hmode. revert st. induction fuel as [| f IH]; intros st H; simpl in H.
  - injection H as <-. apply fresh_extension_refl.
  - destruct (page_index st <=? max_pages); [| injection H as <-; apply fresh_extension_refl].
    destruct (loop_body fetch incremental filter_time st) as [o |] eqn:Hb; [| discriminate].
    rewrite bind_ok in H. pose proof (loop_body_fresh _ _ _ _ _ Hmode Hb) as Hp.
    destruct o as [s1 | s1].
    + exact (fresh_extension_trans _ _ _ Hp (IH _ H)).
    + by injection H as <-.
Qed.

(** X9: in filter mode (incremental, or with a [since_time]) a crawl
    only appends to [all_articles]; the appended records have pairwise
    distinct non-empty ids, none of them in the initial id set; the id set
    becomes the initial one plus exactly those ids; [last_crawl_time] is
    untouched. *)
Theorem crawl_filter_mode_adds_fresh_ids (net : spider_config -> Z -> json) (max_pages : Z)
  (config : spider_config) (incremental : bool) (since_time : option Z) (s : spider)
  (st : loop_state) :
  incremental = true \/ is_Some since_time ->
  crawl net max_pages config incremental since_time s = Ok st ->
  exists added,
    all_articles (sp st) = all_articles s ++ added /\
    existing_article_ids (sp st) = existing_article_ids s ∪ list_to_set (nonempty_ids added) /\
    NoDup (nonempty_ids added) /\
    (forall i, i ∈ nonempty_ids added -> i ∉ existing_article_ids s) /\
    last_crawl_time (sp st) = last_crawl_time s.
Proof.
  intros Hmode H. unfold crawl in H. apply crawl_loop_fresh in H; [exact H |].
  destruct Hmode as [-> | [t Ht]]; [done |].
  destruct incremental; [done |]. simpl. rewrite Ht. done.
Qed.

Lemma dict_set_fresh {A} (d : list (string * A)) (k : string) (v : A) :
  k ∉ map fst d -> dict_set d k v = d ++ [(k, v)].
Proof.
  induction d as [| [k' v'] r IH]; intros Hk; [done |]. simpl.
  simpl in Hk. destruct (String.eqb k k') eqn:E.
  - apply String.eqb_eq in E. subst. exfalso. apply Hk. by left.
  - rewrite IH; [done | intros Hin; apply Hk; by right].
Qed.

Lemma batch_loop_concat (net : spider_config -> Z -> json)
  (configs : list (string * spider_config)) (max_pages : Z) (incremental : bool)
  (since_time : option Z) (names : list string) (s s' : spider)
  (results results' : list (string * list article)) :
  batch_loop net configs max_pages incremental since_time names s results = Ok (s', results') ->
  NoDup names -> (forall n, n ∈ names -> n ∉ map fst results) ->
  exists added,
    results' = results ++ added /\
    map fst added = filter (fun n => is_Some (dict_get configs n)) names /\
    all_articles s' = all_articles s ++ concat (map snd added).
Proof.
  revert s results. induction names as [| n rest IH]; intros s results H Hnd Hfresh; simpl in H.
  - injection H as <- <-. exists []. simpl. rewrite !app_nil_r. split_and!; reflexivity.
  - apply NoDup_cons in Hnd as [Hn Hnd].
    rewrite filter_cons.
    destruct (dict_get configs n) as [config |] eqn:Hc.
    + destruct (get_all_articles net max_pages config incremental since_time
                  (set_all_articles s [])) as [[s1 arts] |] eqn:Hg; [| discriminate].
      rewrite bind_ok in H.
      rewrite dict_set_fresh in H by (apply Hfresh; by left).
      destruct (IH _ _ H Hnd) as (added & -> & Hk & Ha).
      { intros m Hm. rewrite map_app. simpl. rewrite elem_of_app, list_elem_of_singleton.
        intros [Hin | ->]; [| done]. apply (Hfresh m); [by right | done]. }
      exists ((n, arts) :: added). rewrite <- app_assoc. split; [done |].
      rewrite decide_True by done. simpl. split; [by rewrite Hk |].
      rewrite Ha. simpl. by rewrite app_assoc.
    + rewrite decide_False by (intros [? ?]; discriminate).
      apply (IH _ _ H Hnd). intros m Hm. apply Hfresh. by right.
Qed.

(** X10: for distinct configuration names, the result dict has one
    entry per name that is a known configuration, in the order given
    (unknown names are skipped), and [all_articles] ends as its initial
    value followed by the entries' lists in that order. *)
Theorem batch_results_and_corpus (net : spider_config -> Z -> json)
  (configs : list (string * spider_config)) (max_pages : Z) (incremental : bool)
  (since_time : option Z) (names : list string) (s s' : spider)
  (results : list (string * list article)) :
  NoDup names ->
  get_all_articles_batch net configs max_pages incremental since_time (Some names) s = Ok (s', results) ->
  map fst results = filter (fun n => is_Some (dict_get configs n)) names /\
  all_articles s' = all_articles s ++ concat (map snd results).
Proof.
  intros Hnd H. unfold get_all_articles_batch in H.
  assert (Hfresh : forall n, n ∈ names -> n ∉ map fst (@nil (string * list article)))
    by (intros n _ Hn; inversion Hn).
  destruct (batch_loop_concat _ _ _ _ _ _ _ _ _ _ H Hnd Hfresh) as (added & -> & Hk & Ha).
  done.
Qed.

Lemma count_filter_not_in (ids : gset string) (x : string) (l : list article) :
  length (filter (fun a => id a = x) (filter (fun a => id a ∉ ids) l)) =
    if decide (x ∈ ids) then 0%nat else length (filter (fun a => id a = x) l).
Proof.
  induction l as [| a l IH].
  - by destruct (decide (x ∈ ids)).
  - rewrite (filter_cons (fun a => id a ∉ ids)), (filter_cons (fun a => id a = x)).
    destruct (decide (id a ∉ ids)) as [Hn | Hn].
    + rewrite filter_cons. destruct (decide (id a = x)) as [<- | Hx]; simpl.
      * rewrite decide_False by done. rewrite IH, decide_False by done. done.
      * done.
    + destruct (decide (id a = x)) as [<- | Hx]; simpl.
      * rewrite IH. apply dec_stable in Hn. by rewrite !decide_True.
      * done.
Qed.

(** X11: the number of records with id [x] after the merge is their
    number in the corpus, plus their number among the incoming records
    unless [x] is a non-empty id of the corpus: incoming records are never
    deduplicated among themselves. *)
Theorem merge_multiplicity (existing incoming : list article) (x : string) :
  length (filter (fun a => id a = x) (merge existing incoming)) =
    (length (filter (fun a => id a = x) existing) +
     if decide (x ∈ existing_ids existing) then 0
     else length (filter (fun a => id a = x) incoming))%nat.
Proof.
  unfold merge. rewrite filter_app, length_app, count_filter_not_in. reflexivity.
Qed.

Lemma elem_of_nonempty_ids (i : string) (l : list article) :
  i ∈ nonempty_ids l <-> i <> "" /\ exists a, a ∈ l /\ id a = i.
Proof.
  unfold nonempty_ids. rewrite list_elem_of_filter, list_elem_of_In, in_map_iff.
  setoid_rewrite list_elem_of_In. firstorder.
Qed.

Lemma nonempty_ids_filter_sublist (P : article -> Prop) `{!forall a, Decision (P a)}
  (l : list article) : nonempty_ids (filter P l) `sublist_of` nonempty_ids l.
Proof.
  induction l as [| a l IH]; [done |].
  rewrite filter_cons. destruct (decide (P a)); rewrite !nonempty_ids_cons;
    destruct (decide (id a = "")); try done.
  - by apply sublist_skip.
  - by apply sublist_cons.
Qed.

(** X12: when the non-empty ids of the corpus are pairwise distinct and
    so are those of the incoming records, so are those of the merge. *)
Theorem merge_keeps_ids_distinct (existing incoming : list article) :
  NoDup (nonempty_ids existing) -> NoDup (nonempty_ids incoming) ->
  NoDup (nonempty_ids (merge existing incoming)).
Proof.
  intros He Hi. unfold merge. rewrite nonempty_ids_app. apply NoDup_app. split_and!.
  - done.
  - intros x Hx Hx'.
    apply elem_of_nonempty_ids in Hx' as (Hne & a & Ha & <-).
    apply list_elem_of_filter in Ha as [Hn _]. apply Hn.
    apply elem_of_existing_ids. apply elem_of_nonempty_ids in Hx as (_ & b & Hb & Hbid).
    split; [done |]. apply Exists_exists. exists b. by split.
  - eapply sublist_NoDup; [exact Hi | apply nonempty_ids_filter_sublist].
Qed.

Definition result_map {A B} (g : A -> B) (r : result A) : result B :=
  match r with Ok a => Ok (g a) | Raise e => Raise e end.

(** X13: in [spider.py], [incremental_crawl] returns what
    [get_all_articles_batch(config_names, max_pages, incremental=True)]
    returns on the spider as it was, and leaves the spider as that call
    does, whatever the data directory holds: neither the corpus nor the
    crawl history is ever loaded. *)
Theorem incremental_crawl_ignores_disk (net : spider_config -> Z -> json)
  (configs : list (string * spider_config)) (data_dir crawl_history_file now_iso : string)
  (config_names : option (list string)) (max_pages : Z) (load_existing : bool)
  (f : fs) (s : spider) :
  result_map (fun '(s', _, results) => (s', results))
    (incremental_crawl net configs data_dir crawl_history_file now_iso config_names max_pages
       load_existing f s) =
  get_all_articles_batch net configs max_pages true None config_names s.
Proof.
  unfold incremental_crawl.
  assert (Hh : load_crawl_history f crawl_history_file s = s)
    by (unfold load_crawl_history; by destruct (dict_get _ _)).
  assert (He : load_existing_data f data_dir None s = (s, []))
    by (unfold load_existing_data; by destruct (dict_get _ _)).
  rewrite Hh. replace (if load_existing then load_existing_data f data_dir None s else (s, []))
    with (s, @nil article) by (destruct load_existing; done).
  destruct (get_all_articles_batch net configs max_pages true None config_names s)
    as [[s3 results] |]; [| reflexivity].
  rewrite bind_ok. unfold save_crawl_history.
  match goal with |- context [save_json ?g ?p ?d] => destruct (save_json g p d) as [f' [u | e]] end;
    reflexivity.
Qed.

Lemma merge_nil_l (incoming : list article) : merge [] incoming = incoming.
Proof.
  unfold merge. simpl. induction incoming as [| a l IH]; [done |].
  rewrite filter_cons, decide_True by set_solver. simpl. by f_equal.
Qed.

(** X14: in [spider.py], the first write of
    [merge_and_save_incremental] replaces [<base>_all.json] with the new
    results alone, whatever that file held before, and the spider is
    unchanged. *)
Theorem merge_and_save_incremental_drops_corpus (f : fs) (data_dir base_filename : string)
  (s : spider) (new_results : list (string * list article)) :
  exists rest,
    merge_and_save_incremental_writes f data_dir base_filename s new_results =
      (s, WriteJson (path_join data_dir (base_filename ++ "_all.json"))
            (concat (map snd new_results)) :: rest).
Proof.
  unfold merge_and_save_incremental_writes, load_existing_data.
  destruct (dict_get _ _); unfold merge_and_save_incremental; rewrite merge_nil_l; eexists; reflexivity.
Qed.

(** X15: [SpiderConfig.from_dict] inverts [to_dict]; a dict without
    ["section_id"] raises [KeyError]; a dict without ["description"] and
    ["base_url"] gets [""] and the default URL. *)
Theorem spider_config_dict_round_trip (c : SpiderConfig.t) (kvs : list (string * json)) :
  SpiderConfig.from_dict (SpiderConfig.to_dict c) = Ok c /\
  (obj_lookup "section_id" kvs = None -> SpiderConfig.from_dict (JObj kvs) = Raise KeyError) /\
  (forall c', obj_lookup "description" kvs = None -> obj_lookup "base_url" kvs = None ->
   SpiderConfig.from_dict (JObj kvs) = Ok c' ->
   SpiderConfig.description c' = JStr "" /\
   SpiderConfig.base_url c' = JStr SpiderConfig.default_base_url).
Proof.
  split_and!.
  - by destruct c.
  - intros H. unfold SpiderConfig.from_dict, py_getitem. by rewrite H.
  - intros c' Hd Hb H. unfold SpiderConfig.from_dict, py_getitem, py_get in H.
    destruct (obj_lookup "section_id" kvs); [| discriminate].
    destruct (obj_lookup "topic_class_id" kvs); [| discriminate].
    destruct (obj_lookup "name" kvs); [| discriminate].
    rewrite Hd, Hb in H. simpl in H. by injection H as <-.
Qed.

Lemma dict_set_keys {A} (d : list (string * A)) (k : string) (v : A) :
  map fst (dict_set d k v) = if decide (k ∈ map fst d) then map fst d else map fst d ++ [k].
Proof.
  induction d as [| [k' v'] r IH]; cbn [dict_set map fst].
  - rewrite decide_False by (intros Hin; inversion Hin). done.
  - destruct (String.eqb k k') eqn:E.
    + apply String.eqb_eq in E as ->. rewrite decide_True by by left. done.
    + apply String.eqb_neq in E. cbn [map fst]. rewrite IH.
      destruct (decide (k ∈ map fst r)) as [Hin | Hin].
      * rewrite decide_True by by right. done.
      * rewrite decide_False; [done |]. intros Hc. apply elem_of_cons in Hc as [? | ?]; done.
Qed.

(** X16: after [add_config(name, ...)], [set_config(name)] succeeds and
    selects the new configuration; other names keep their configuration;
    the name is appended to the order of the dict unless it was there. *)
Theorem add_config_then_set_config (configs : list (string * SpiderConfig.t))
  (current_config : SpiderConfig.t)
  (config_name section_id topic_class_id name description : string) :
  let configs' := add_config configs config_name section_id topic_class_id name description in
  set_config configs' current_config config_name =
    (SpiderConfig.mk (JStr section_id) (JStr topic_class_id) (JStr name) (JStr description)
       (JStr SpiderConfig.default_base_url), true) /\
  (forall other, other <> config_name -> dict_get configs' other = dict_get configs other) /\
  map fst configs' =
    (if decide (config_name ∈ map fst configs) then map fst configs
     else map fst configs ++ [config_name]).
Proof.
  simpl. unfold add_config, set_config. split_and!.
  - rewrite dict_get_set, String.eqb_refl. reflexivity.
  - intros other Hne. rewrite dict_get_set. apply String.eqb_neq in Hne. by rewrite Hne.
  - apply dict_set_keys.
Qed.




Fixpoint has_sep (l : list ascii) : bool :=
  match l with
  | c :: r =>
      match r with
      | d :: _ => (Ascii.eqb c ";"%char && Ascii.eqb d " "%char) || has_sep r
      | [] => false
      end
  | [] => false
  end.

Definition cookie_item (p : string * string) : string := (fst p ++ "=" ++ snd p)%string.

Definition cookie_header (l : list (string * string)) : string :=
  String.concat "; " (map cookie_item l).

Definition cookie_ok (p : string * string) : Prop :=
  ~ (("="%char) ∈ list_ascii_of_string (fst p)) /\ has_sep (list_ascii_of_string (cookie_item p)) = false.

Lemma list_ascii_of_string_app (s1 s2 : string) :
  list_ascii_of_string (s1 ++ s2) = list_ascii_of_string s1 ++ list_ascii_of_string s2.
Proof. induction s1 as [| c s1 IH]; simpl; [done | by rewrite IH]. Qed.

Lemma split_cookie_list_step (c d : ascii) (r cur : list ascii) :
  split_cookie_list (c :: d :: r) cur =
    if Ascii.eqb c ";"%char && Ascii.eqb d " "%char
    then rev cur :: split_cookie_list r []
    else split_cookie_list (d :: r) (c :: cur).
Proof. reflexivity. Qed.

Lemma split_cookie_list_sep (w r cur : list ascii) :
  has_sep w = false ->
  split_cookie_list (w ++ ";"%char :: " "%char :: r) cur = (rev cur ++ w) :: split_cookie_list r [].
Proof.
  revert cur. induction w as [| c w IH]; intros cur Hw.
  - simpl. rewrite app_nil_r. reflexivity.
  - destruct w as [| d w'].
    + simpl app. rewrite split_cookie_list_step, andb_false_r.
      rewrite split_cookie_list_step. simpl. reflexivity.
    + simpl in Hw. apply orb_false_iff in Hw as [Hcd Hw].
      simpl app. rewrite split_cookie_list_step, Hcd.
      change (d :: w' ++ ";"%char :: " "%char :: r) with ((d :: w') ++ ";"%char :: " "%char :: r).
      rewrite IH by done. simpl. by rewrite <- app_assoc.
Qed.

Lemma split_cookie_list_last (w cur : list ascii) :
  has_sep w = false -> split_cookie_list w cur = [rev cur ++ w].
Proof.
  revert cur. induction w as [| c w IH]; intros cur Hw.
  - simpl. by rewrite app_nil_r.
  - destruct w as [| d w'].
    + simpl. reflexivity.
    + simpl in Hw. apply orb_false_iff in Hw as [Hcd Hw].
      rewrite split_cookie_list_step, Hcd. rewrite IH by done. simpl. by rewrite <- app_assoc.
Qed.

Lemma split_cookie_header (p : string * string) (ps : list (string * string)) :
  Forall cookie_ok (p :: ps) ->
  split_cookie_list (list_ascii_of_string (cookie_header (p :: ps))) [] =
    map (fun q => list_ascii_of_string (cookie_item q)) (p :: ps).
Proof.
  revert p. induction ps as [| q qs IH]; intros p Hok.
  - apply Forall_cons in Hok as [[_ Hp] _].
    unfold cookie_header. simpl. by rewrite split_cookie_list_last.
  - apply Forall_cons in Hok as [[Hk Hp] Hrest].
    assert (E : cookie_header (p :: q :: qs) = (cookie_item p ++ "; " ++ cookie_header (q :: qs))%string)
      by reflexivity.
    rewrite E, !list_ascii_of_string_app. simpl list_ascii_of_string at 2.
    cbn [app]. rewrite split_cookie_list_sep by done. rewrite IH by done. reflexivity.
Qed.

Lemma split_once_eq_item (k v : list ascii) :
  ~ (("="%char) ∈ k) -> split_once_eq (k ++ "="%char :: v) = Some (k, v).
Proof.
  induction k as [| c k IH]; intros Hk; [done |].
  simpl. destruct (Ascii.eqb_spec c "="%char) as [-> | Hc].
  - exfalso. apply Hk. by left.
  - rewrite IH; [done |]. intros Hin. apply Hk. by right.
Qed.

(** X1: for pairs whose keys contain no ['='] and whose [k=v] contains
    no ["; "], parsing the header ["k1=v1; k2=v2; ..."] gives the dict
    built by assigning the pairs in order: values keep their ['='], and a
    repeated key keeps its last value, at its first position. *)
Theorem parse_cookies_round_trip (l : list (string * string)) :
  Forall cookie_ok l ->
  _parse_cookies (cookie_header l) = fold_left (fun d '(k, v) => dict_set d k v) l [].
Proof.
  intros Hok. destruct l as [| p ps]; [reflexivity |].
  unfold _parse_cookies.
  assert (Hne : String.eqb (cookie_header (p :: ps)) "" = false).
  { apply String.eqb_neq. intros E. apply (f_equal list_ascii_of_string) in E.
    destruct ps; unfold cookie_header, cookie_item in E; simpl in E;
      rewrite ?list_ascii_of_string_app in E; simpl in E;
      apply (f_equal (@length ascii)) in E; rewrite ?length_app in E; simpl in E; lia. }
  rewrite Hne, split_cookie_header by done.
  generalize (@nil (string * string)) as d. revert Hok. generalize (p :: ps) as l.
  induction l as [| [k v] l IH]; intros Hok d; [done |].
  apply Forall_cons in Hok as [[Hk _] Hrest]. simpl.
  unfold cookie_item. simpl. rewrite list_ascii_of_string_app. simpl.
  rewrite split_once_eq_item by done. rewrite !string_of_list_ascii_of_string.
  by apply IH.
Qed.

(** * Witnesses: the theorems applied at concrete inputs *)

Definition ok_or {A} (d : A) (r : result A) : A :=
  match r with Ok a => a | Raise _ => d end.

(** The article of [overflow_article] is skipped as a duplicate before its
    stamps are parsed. *)
Lemma filter_rejects_seen_id_witness :
  filter_one {["42"]} (Some 0) overflow_article = Ok (None, {["42"]}) /\
  filter_new_articles {["42"]} [overflow_article] (Some 0) = Ok ([], {["42"]}).
Proof.
  assert (H1 : id overflow_article <> "") by discriminate.
  assert (H2 : id overflow_article ∈ ({["42"]} : gset string)) by (apply elem_of_singleton; reflexivity).
  split; [exact (proj1 (filter_rejects_seen_id {["42"]} (Some 0) overflow_article H1 H2)) |].
  reflexivity.
Defined.

Definition undated_article : article := mk_article "7" (JStr "t") (JStr "") (JStr "yesterday").

Lemma filter_one_unknown_time_accepts_witness :
  filter_one ∅ (Some 5) undated_article = Ok (Some undated_article, {["7"]} ∪ ∅).
Proof.
  apply (filter_one_unknown_time_accepts ∅ (Some 5) undated_article).
  - left. reflexivity.
  - right. right. exists "yesterday". split; reflexivity.
  - right. apply not_elem_of_empty.
Defined.

Definition rec1 : article := mk_article "1" JNull (JStr "") (JStr "").
Definition rec2 : article := mk_article "2" JNull (JStr "") (JStr "").

Lemma merge_idempotent_nonempty_ids_witness :
  merge [rec1] (merge [rec1] [rec1; rec2]) = merge [rec1] [rec1; rec2] /\
  merge [rec1] [rec1; rec2] = [rec1; rec2].
Proof.
  split; [| reflexivity].
  apply (proj2 (merge_idempotent_nonempty_ids [rec1] [rec1; rec2])).
  repeat constructor. discriminate.
Defined.

Definition page2_articles : list article :=
  repeat (mk_article "p2" (JStr "note") (JStr "") (JStr "1700000000")) 2.

Lemma short_page_ends_loop_witness :
  exists st', loop_body (scenario_a_net original_config) false None (mk_loop fresh_spider 2 []) =
                Ok (Done st') /\ page_index st' = 2.
Proof.
  destruct (loop_body (scenario_a_net original_config) false None (mk_loop fresh_spider 2 []))
    as [o | e] eqn:Hb; [| vm_compute in Hb; discriminate].
  destruct (proj1 (short_page_ends_loop (scenario_a_net original_config) false None
                     (mk_loop fresh_spider 2 []) page2_articles
                     ltac:(vm_compute; reflexivity) ltac:(vm_compute; reflexivity)
                     ltac:(vm_compute; reflexivity)) o Hb) as [st' [-> Hp]].
  exists st'. split; [reflexivity | exact Hp].
Defined.

(** Page 4 of an incremental run repeats twelve posts seen before. *)
Definition duplicates_net (p : Z) : json := page_payload 100 (repeat (raw_item "p1") 12).

Definition seen_p1_state : loop_state := mk_loop (mk_spider [] {["p1"]} None) 4 [].

Lemma catch_up_hint_does_not_stop_witness :
  loop_body duplicates_net true None seen_p1_state =
    Ok (Continue (mk_loop (mk_spider ([] ++ []) {["p1"]} None) 5
                   ([] ++ [EFetch 4] ++ [ECatchUpHint 4]))).
Proof.
  apply (proj1 (catch_up_hint_does_not_stop duplicates_net None 100 seen_p1_state
                  (repeat (mk_article "p1" (JStr "note") (JStr "") (JStr "1700000000")) 12)
                  {["p1"]}
                  ltac:(vm_compute; reflexivity) ltac:(vm_compute; reflexivity)
                  ltac:(vm_compute; reflexivity) ltac:(vm_compute; discriminate)
                  ltac:(vm_compute; reflexivity) ltac:(vm_compute; reflexivity))).
Defined.

Definition run1 : spider * list article :=
  ok_or (fresh_spider, []) (get_all_articles scenario_a_net 100 original_config false None fresh_spider).
Definition run2 : spider * list article :=
  ok_or (fresh_spider, []) (get_all_articles scenario_a_net 100 original_config false None (fst run1)).

Definition new_target_config : spider_config :=
  mk_config "0101178462695499013" "0697178462739351002" "new_target".

Definition two_configs : list (string * spider_config) :=
  [("original", original_config); ("new_target", new_target_config)].

Definition batch_run : spider * list (string * list article) :=
  ok_or (fresh_spider, [])
    (get_all_articles_batch scenario_a_net two_configs 100 false None None fresh_spider).

Lemma accumulator_shared_batch_reset_witness :
  (snd run1 = all_articles (fst run1) /\ all_articles fresh_spider `prefix_of` snd run1 /\
   snd run1 `prefix_of` snd run2) /\
  (forall name l, dict_get (snd batch_run) name = Some l ->
     exists cfg s0 s0', dict_get two_configs name = Some cfg /\
       get_all_articles scenario_a_net 100 cfg false None (set_all_articles s0 []) =
         Ok (s0', l) /\ l = all_articles s0') /\
  length (snd run1) = 14%nat /\ length (snd run2) = 28%nat /\
  dict_get (snd batch_run) "new_target" = Some (snd run1) /\
  length (all_articles (fst batch_run)) = 28%nat.
Proof.
  split; [| split; [| split; [| split; [| split]]]]; try (vm_compute; reflexivity).
  - apply (proj1 (accumulator_shared_batch_reset scenario_a_net 100 100 original_config
                    original_config false false None None fresh_spider (fst run1) (fst run2)
                    (snd run1) (snd run2) two_configs None fresh_spider []));
      vm_compute; reflexivity.
  - apply (proj2 (accumulator_shared_batch_reset scenario_a_net 100 100 original_config
                    original_config false false None None fresh_spider (fst run1) (fst run2)
                    (snd run1) (snd run2) two_configs None (fst batch_run) (snd batch_run))).
    vm_compute; reflexivity.
Defined.

(** ** Witnesses of the further properties *)

Ltac decide_closed := apply (bool_decide_unpack _); vm_compute; exact I.

Definition sample_cookies : list (string * string) :=
  [("SESSION", "a1"); ("token", "x=y"); ("SESSION", "b2")].

Lemma parse_cookies_round_trip_witness :
  Forall cookie_ok sample_cookies /\
  _parse_cookies (cookie_header sample_cookies) =
    fold_left (fun d '(k, v) => dict_set d k v) sample_cookies [].
Proof.
  assert (H : Forall cookie_ok sample_cookies)
    by (unfold sample_cookies;
        repeat (apply Forall_cons_2; [unfold cookie_ok; split; [decide_closed | reflexivity] |]);
        apply Forall_nil_2).
  split; [exact H | apply (parse_cookies_round_trip sample_cookies H)].
Defined.

Lemma parse_timestamp_ms_matches_seconds_witness :
  py_int (JStr "1700000000000") = Some (1700000000 * 1000) /\
  py_int (JStr "1700000000") = Some 1700000000 /\
  (10 ^ 9 < 1700000000 < dt_hi) /\
  _parse_timestamp (JStr "1700000000000") = Ok (Some (1700000000 * 1000000)) /\
  _parse_timestamp (JStr "1700000000") = Ok (Some (1700000000 * 1000000)).
Proof.
  assert (H1 : py_int (JStr "1700000000000") = Some (1700000000 * 1000)) by (vm_compute; reflexivity).
  assert (H2 : py_int (JStr "1700000000") = Some 1700000000) by (vm_compute; reflexivity).
  assert (H : 10 ^ 9 < 1700000000 < dt_hi) by (split; vm_compute; reflexivity).
  split; [exact H1 | split; [exact H2 | split; [exact H |]]].
  apply (parse_timestamp_ms_matches_seconds _ _ 1700000000 H1 H2 H).
Defined.

Definition far_future_article : article :=
  mk_article "9" JNull (JStr "300000000000") (JStr "").

Lemma far_future_seconds_unknown_witness :
  py_int (JStr "300000000000") = Some 300000000000 /\
  (dt_hi <= 300000000000 <= 10 ^ 12) /\
  _parse_timestamp (JStr "300000000000") = Ok None /\
  (update_time far_future_article = JStr "300000000000" ->
   _parse_timestamp (publish_time far_future_article) = Ok None ->
   _is_article_newer far_future_article (Some 0) = Ok true).
Proof.
  assert (Hv : py_int (JStr "300000000000") = Some 300000000000) by (vm_compute; reflexivity).
  assert (H : dt_hi <= 300000000000 <= 10 ^ 12) by (split; vm_compute; discriminate).
  split; [exact Hv | split; [exact H |]].
  apply (far_future_seconds_unknown _ 300000000000 far_future_article (Some 0) Hv H).
Defined.

Definition dated_article : article := mk_article "5" JNull (JStr "1700000000") (JStr "").

Lemma is_article_newer_antitone_witness :
  _is_article_newer dated_article (Some 1600000000000000) = Ok true /\
  0 <= 1600000000000000 /\
  _is_article_newer dated_article (Some 0) = Ok true.
Proof.
  assert (H1 : _is_article_newer dated_article (Some 1600000000000000) = Ok true)
    by (vm_compute; reflexivity).
  assert (H2 : 0 <= 1600000000000000) by lia.
  split; [exact H1 | split; [exact H2 |]].
  exact (is_article_newer_antitone dated_article 1600000000000000 0 H1 H2).
Defined.

Definition repeated_records : list article := [rec1; rec2; rec1; empty_id_article].

Lemma filter_new_articles_output_invariants_witness :
  exists r, filter_new_articles ∅ repeated_records None = Ok r /\
    r.1 `sublist_of` repeated_records /\
    r.2 = ∅ ∪ list_to_set (nonempty_ids r.1) /\
    NoDup (nonempty_ids r.1) /\
    (forall i, i ∈ nonempty_ids r.1 -> i ∉ (∅ : gset string)) /\
    (forall a, a ∈ r.1 -> _is_article_newer a None = Ok true).
Proof.
  destruct (filter_new_articles ∅ repeated_records None) as [[out seen'] |] eqn:E;
    [| vm_compute in E; discriminate].
  exists (out, seen'). split; [reflexivity |].
  exact (filter_new_articles_output_invariants ∅ repeated_records None out seen' E).
Defined.

Lemma filter_new_articles_refilter_witness :
  exists r, filter_new_articles ∅ repeated_records None = Ok r /\
    filter_new_articles r.2 r.1 None = Ok (filter (fun a => id a = "") r.1, r.2).
Proof.
  destruct (filter_new_articles ∅ repeated_records None) as [[out seen'] |] eqn:E;
    [| vm_compute in E; discriminate].
  exists (out, seen'). split; [reflexivity |].
  exact (filter_new_articles_refilter ∅ repeated_records None out seen' E).
Defined.

Definition two_item_payload : list (string * json) :=
  [("data", JObj [("resultList", JArr [raw_item "a"; raw_item "b"])])].

Lemma parse_articles_one_record_per_item_witness :
  exists arts, parse_articles (JObj two_item_payload) = Ok arts /\
    map (fun a => Some (id a)) arts = map item_post_id [raw_item "a"; raw_item "b"].
Proof.
  destruct (parse_articles_one_record_per_item two_item_payload
              [("resultList", JArr [raw_item "a"; raw_item "b"])]) as (_ & _ & H).
  apply H; [reflexivity | reflexivity |].
  repeat constructor; simpl; eexists; reflexivity.
Defined.

Lemma crawl_requests_consecutive_pages_witness :
  exists st, crawl scenario_a_net 5 original_config false None fresh_spider = Ok st /\
    exists k, 0 <= k <= Z.max 0 5 /\ fetched_pages (events st) = seqZ 1 k.
Proof.
  destruct (crawl scenario_a_net 5 original_config false None fresh_spider) as [st |] eqn:E;
    [| vm_compute in E; discriminate].
  exists st. split; [reflexivity |].
  exact (crawl_requests_consecutive_pages scenario_a_net 5 original_config false None
           fresh_spider st E).
Defined.

Lemma crawl_filter_mode_adds_fresh_ids_witness :
  exists st, crawl (fun _ => duplicates_net) 3 original_config true None fresh_spider = Ok st /\
    exists added,
      all_articles (sp st) = all_articles fresh_spider ++ added /\
      existing_article_ids (sp st) =
        existing_article_ids fresh_spider ∪ list_to_set (nonempty_ids added) /\
      NoDup (nonempty_ids added) /\
      (forall i, i ∈ nonempty_ids added -> i ∉ existing_article_ids fresh_spider) /\
      last_crawl_time (sp st) = last_crawl_time fresh_spider.
Proof.
  destruct (crawl (fun _ => duplicates_net) 3 original_config true None fresh_spider) as [st |] eqn:E;
    [| vm_compute in E; discriminate].
  exists st. split; [reflexivity |].
  exact (crawl_filter_mode_adds_fresh_ids (fun _ => duplicates_net) 3 original_config true None
           fresh_spider st (or_introl eq_refl) E).
Defined.

Definition batch_names : list string := ["new_target"; "missing"; "original"].

Lemma batch_results_and_corpus_witness :
  exists r, get_all_articles_batch scenario_a_net two_configs 3 false None (Some batch_names)
              fresh_spider = Ok r /\
    map fst r.2 = filter (fun n => is_Some (dict_get two_configs n)) batch_names /\
    all_articles r.1 = all_articles fresh_spider ++ concat (map snd r.2).
Proof.
  assert (Hnd : NoDup batch_names) by decide_closed.
  destruct (get_all_articles_batch scenario_a_net two_configs 3 false None (Some batch_names)
              fresh_spider) as [[s' results] |] eqn:E; [| vm_compute in E; discriminate].
  exists (s', results). split; [reflexivity |].
  exact (batch_results_and_corpus scenario_a_net two_configs 3 false None batch_names
           fresh_spider s' results Hnd E).
Defined.

Lemma merge_keeps_ids_distinct_witness :
  NoDup (nonempty_ids [rec1; empty_id_article]) /\
  NoDup (nonempty_ids [rec2; rec1; empty_id_article]) /\
  NoDup (nonempty_ids (merge [rec1; empty_id_article] [rec2; rec1; empty_id_article])).
Proof.
  assert (H1 : NoDup (nonempty_ids [rec1; empty_id_article])) by decide_closed.
  assert (H2 : NoDup (nonempty_ids [rec2; rec1; empty_id_article])) by decide_closed.
  split; [exact H1 | split; [exact H2 |]].
  exact (merge_keeps_ids_distinct _ _ H1 H2).
Defined.

Definition sample_config : SpiderConfig.t :=
  SpiderConfig.mk (JStr "0157117713657966001") (JStr "0672154839186846001") (JStr "original")
    (JStr "") (JStr SpiderConfig.default_base_url).

Definition required_keys_only : list (string * json) :=
  [("section_id", JStr "1"); ("topic_class_id", JStr "2"); ("name", JStr "n")].

Lemma spider_config_dict_round_trip_witness :
  SpiderConfig.from_dict (SpiderConfig.to_dict sample_config) = Ok sample_config /\
  exists c', SpiderConfig.from_dict (JObj required_keys_only) = Ok c' /\
    SpiderConfig.description c' = JStr "" /\
    SpiderConfig.base_url c' = JStr SpiderConfig.default_base_url.
Proof.
  split; [exact (proj1 (spider_config_dict_round_trip sample_config required_keys_only)) |].
  destruct (SpiderConfig.from_dict (JObj required_keys_only)) as [c' |] eqn:E;
    [| vm_compute in E; discriminate].
  exists c'. split; [reflexivity |].
  exact (proj2 (proj2 (spider_config_dict_round_trip sample_config required_keys_only))
           c' eq_refl eq_refl E).
Defined.

Definition sample_configs : list (string * SpiderConfig.t) := [("original", sample_config)].

Lemma add_config_then_set_config_witness :
  set_config (add_config sample_configs "extra" "1" "2" "Extra" "") sample_config "extra" =
    (SpiderConfig.mk (JStr "1") (JStr "2") (JStr "Extra") (JStr "")
       (JStr SpiderConfig.default_base_url), true) /\
  dict_get (add_config sample_configs "extra" "1" "2" "Extra" "") "original" =
    dict_get sample_configs "original".
Proof.
  destruct (add_config_then_set_config sample_configs sample_config "extra" "1" "2" "Extra" "")
    as (H1 & H2 & _).
  split; [exact H1 | apply H2; discriminate].
Defined.




